(** * GRR admin UI: flow list entries and the report controller

    A shallow embedding of two pieces of the GRR web console:

    - [lib/models/flow.ts]: the flow data model and the utilities
      [updateFlowListEntryResultSet], [findFlowListEntryResultSet] and
      [flowListEntryFromFlow];
    - the AngularJS [ReportController] of [grrUi.stats.reportDirective]
      ([onParamsChange_], [refreshReport], [fetchData_] and the constructor).

    JavaScript values are modelled by the type [Json]; a JS [number] that the
    code only stores, compares with [null] or tests for truthiness is an
    integer [Z] (every value the code computes stays far below 2^53, where
    doubles are exact), with [JNaN] kept apart because it is falsy.  An array
    is the object of its index properties, which is all this code can observe
    of one: it only reads and writes properties with fixed string names. *)

From Stdlib Require Import ZArith String List Bool Lia DecimalString.
From stdpp Require Import base option list strings gmap.
Import ListNotations.

Set Warnings "-register-all".
Set Default Proof Using "Type".
Local Open Scope Z_scope.

(** ** JavaScript values *)

Inductive Json : Type :=
| JUndefined
| JNull
| JBool (b : bool)
| JNum (z : Z)
| JNaN
| JStr (s : string)
| JObj (props : list (string * Json)).

(** The truthiness test of [if (v)]. *)
Definition truthy (v : Json) : bool :=
  match v with
  | JUndefined | JNull | JNaN => false
  | JBool b => b
  | JNum z => negb (z =? 0)
  | JStr s => negb (String.eqb s "")
  | JObj _ => true
  end.

(** [v === null]. *)
Definition is_null (v : Json) : bool :=
  match v with JNull => true | _ => false end.

(** ** The flow data model ([lib/models/flow.ts]) *)

Module Flow.

Inductive FlowState : Type := UNSET | RUNNING | FINISHED | ERROR.

(** A [Date] is its number of milliseconds since the epoch. *)
Record Flow : Type := {
  flowId : string;
  clientId : string;
  lastActiveAt : Z;
  startedAt : Z;
  name : string;
  creator : string;
  args : Json;
  progress : Json;
  state : FlowState;
}.

Record FlowResult : Type := {
  payload : Json;
  tag : string;
  timestamp : Z;
}.

(** [withType?: string] and [withTag?: string] are [None] when absent. *)
Record FlowResultsQuery : Type := {
  q_flowId : string;
  withType : option string;
  withTag : option string;
  offset : Z;
  count : Z;
}.

Inductive FlowResultSetState : Type := IN_PROGRESS | FETCHED.

Record FlowResultSet : Type := {
  sourceQuery : FlowResultsQuery;
  rs_state : FlowResultSetState;
  items : list FlowResult;
}.

Record FlowListEntry : Type := {
  flow : Flow;
  resultSets : list FlowResultSet;
}.

(** [a === b] on [string | undefined]. *)
Definition strict_eq (a b : option string) : bool := bool_decide (a = b).

(** The test of the loop body of [updateFlowListEntryResultSet]:
    [rs.sourceQuery.withTag === resultSet.sourceQuery.withTag &&
     rs.sourceQuery.withType === resultSet.sourceQuery.withType]. *)
Definition same_filter (rs resultSet : FlowResultSet) : bool :=
  strict_eq (withTag (sourceQuery rs)) (withTag (sourceQuery resultSet)) &&
  strict_eq (withType (sourceQuery rs)) (withType (sourceQuery resultSet)).

(** The [for (const rs of fle.resultSets)] loop, threading the two locals
    [newResultSets] and [pushed]. *)
Fixpoint update_loop (resultSet : FlowResultSet) (rest : list FlowResultSet)
    (newResultSets : list FlowResultSet) (pushed : bool)
    : list FlowResultSet * bool :=
  match rest with
  | [] => (newResultSets, pushed)
  | rs :: rest' =>
      if same_filter rs resultSet
      then update_loop resultSet rest' (newResultSets ++ [resultSet]) true
      else update_loop resultSet rest' (newResultSets ++ [rs]) pushed
  end.

Definition updateFlowListEntryResultSet
    (fle : FlowListEntry) (resultSet : FlowResultSet) : FlowListEntry :=
  let '(newResultSets, pushed) :=
    update_loop resultSet (resultSets fle) [] false in
  let newResultSets :=
    if negb pushed then newResultSets ++ [resultSet] else newResultSets in
  {| flow := flow fle; resultSets := newResultSets |}.

(** The predicate handed to [Array.prototype.find]. *)
Definition find_pred (withType' withTag' : option string)
    (rs : FlowResultSet) : bool :=
  strict_eq (withType (sourceQuery rs)) withType' &&
  strict_eq (withTag (sourceQuery rs)) withTag'.

(** [undefined] is [None]. *)
Definition findFlowListEntryResultSet (fle : FlowListEntry)
    (withType' withTag' : option string) : option FlowResultSet :=
  List.find (find_pred withType' withTag') (resultSets fle).

Definition flowListEntryFromFlow (f : Flow) : FlowListEntry :=
  {| flow := f; resultSets := [] |}.

(** The filter key that identifies a result set. *)
Definition filter_key (rs : FlowResultSet) : option string * option string :=
  (withType (sourceQuery rs), withTag (sourceQuery rs)).

(** What the loop body pushes for an existing result set [rs]. *)
Definition replaced (resultSet rs : FlowResultSet) : FlowResultSet :=
  if same_filter rs resultSet then resultSet else rs.

(** Whether some result set of [l] has the filter key of [resultSet]. *)
Definition matches (resultSet : FlowResultSet) (l : list FlowResultSet) : bool :=
  existsb (fun rs => same_filter rs resultSet) l.

End Flow.

(** ** [flow.ts] over a store of arrays

    [FlowListEntry.resultSets] is a mutable [FlowResultSet[]]; the other
    fields are [readonly].  To observe what the utilities write, an entry is
    here a record whose [resultSets] field is a reference into a store of
    arrays, [push] updates the store in place, and the [for ... of] loop
    reads the source array afresh at every step, as the array iterator does. *)

Module FlowHeap.
Import Flow.

Abbreviation loc := nat.
Abbreviation store := (gmap nat (list FlowResultSet)).

Record FlowListEntryRef : Type := {
  r_flow : Flow;
  r_resultSets : loc;
}.

(** [arr.push(x)]; [None] is a dangling reference. *)
Definition push (a : loc) (x : FlowResultSet) (σ : store) : option store :=
  match σ !! a with
  | Some items => Some (<[a := items ++ [x]]> σ)
  | None => None
  end.

(** [const a: FlowResultSet[] = []]. *)
Definition alloc (σ : store) : loc * store :=
  let a := fresh (dom σ) in (a, <[a := []]> σ).

(** The array iterator of [for (const rs of fle.resultSets)]: at index [i]
    it reads the array as it is now and stops when [i] is past its end.
    [None] is a dangling reference or an exhausted [fuel]. *)
Fixpoint for_of (fuel : nat) (resultSet : FlowResultSet) (src : loc) (i : nat)
    (newResultSets : loc) (pushed : bool) (σ : store) : option (bool * store) :=
  match fuel with
  | O => None
  | S fuel' =>
      match σ !! src with
      | None => None
      | Some items =>
          match items !! i with
          | None => Some (pushed, σ)
          | Some rs =>
              if same_filter rs resultSet
              then match push newResultSets resultSet σ with
                   | Some σ' =>
                       for_of fuel' resultSet src (S i) newResultSets true σ'
                   | None => None
                   end
              else match push newResultSets rs σ with
                   | Some σ' =>
                       for_of fuel' resultSet src (S i) newResultSets pushed σ'
                   | None => None
                   end
          end
      end
  end.

Definition updateFlowListEntryResultSet (fuel : nat)
    (fle : FlowListEntryRef) (resultSet : FlowResultSet) (σ : store)
    : option (FlowListEntryRef * store) :=
  let '(newResultSets, σ1) := alloc σ in
  match for_of fuel resultSet (r_resultSets fle) 0 newResultSets false σ1 with
  | None => None
  | Some (pushed, σ2) =>
      match (if negb pushed then push newResultSets resultSet σ2
             else Some σ2) with
      | None => None
      | Some σ3 =>
          Some ({| r_flow := r_flow fle; r_resultSets := newResultSets |}, σ3)
      end
  end.

Definition findFlowListEntryResultSet (fle : FlowListEntryRef)
    (withType' withTag' : option string) (σ : store)
    : option (option FlowResultSet * store) :=
  match σ !! r_resultSets fle with
  | None => None
  | Some items => Some (List.find (find_pred withType' withTag') items, σ)
  end.

(** The value an entry denotes in a store. *)
Definition view (σ : store) (fle : FlowListEntryRef) : option FlowListEntry :=
  match σ !! r_resultSets fle with
  | None => None
  | Some items => Some {| flow := r_flow fle; resultSets := items |}
  end.

End FlowHeap.

(** ** The report controller ([grrUi.stats.reportDirective]) *)

Module Report.

(** *** Property access *)

Fixpoint assoc_get (k : string) (props : list (string * Json)) : option Json :=
  match props with
  | [] => None
  | (k', v) :: props' => if String.eqb k' k then Some v else assoc_get k props'
  end.

Fixpoint assoc_set (k : string) (x : Json) (props : list (string * Json))
    : list (string * Json) :=
  match props with
  | [] => [(k, x)]
  | (k', v) :: props' =>
      if String.eqb k' k then (k, x) :: props'
      else (k', v) :: assoc_set k x props'
  end.

(** [v[k]] for one of the names the controller uses; [None] is the
    [TypeError] of reading a property of [undefined] or [null]. *)
Definition prop_get (v : Json) (k : string) : option Json :=
  match v with
  | JUndefined | JNull => None
  | JObj props => Some (default JUndefined (assoc_get k props))
  | _ => Some JUndefined
  end.

(** [v[k] = x], returning the updated object; the file is in strict mode,
    where writing a property of a primitive is a [TypeError] too. *)
Definition prop_set (v : Json) (k : string) (x : Json) : option Json :=
  match v with
  | JObj props => Some (JObj (assoc_set k x props))
  | _ => None
  end.

(** [angular.copy] is a deep copy that leaves out the property [$$hashKey]
    of every object it copies: each copied object ends with
    [setHashKey(destination, undefined)], which deletes that property. *)
Fixpoint angular_copy (v : Json) : Json :=
  match v with
  | JObj props =>
      JObj ((fix copy_props (ps : list (string * Json))
               : list (string * Json) :=
               match ps with
               | [] => []
               | (k, x) :: ps' =>
                   if String.eqb k "$$hashKey" then copy_props ps'
                   else (k, angular_copy x) :: copy_props ps'
               end) props)
  | _ => v
  end.

(** The properties of the copy of an object with the properties [ps]. *)
Fixpoint copy_props (ps : list (string * Json)) : list (string * Json) :=
  match ps with
  | [] => []
  | (k, x) :: ps' =>
      if String.eqb k "$$hashKey" then copy_props ps'
      else (k, angular_copy x) :: copy_props ps'
  end.

(** *** Constants *)

Definition MONTH_SECONDS : Z := 30 * 24 * 60 * 60.

(** [moment_now] is the value of [moment().valueOf()] (milliseconds) when
    the script is loaded: the constant is computed once. *)
Definition DEFAULT_START_TIME (moment_now : Z) : Z :=
  (moment_now - MONTH_SECONDS * 1000) * 1000.

Definition DEFAULT_DURATION : Z := MONTH_SECONDS.

Definition DEFAULT_CLIENT_LABEL : string := "".

(** *** State *)

Record Controller : Type := {
  state : string;
  titleCasedType : Json;
  reportData : Json;
  reportDesc : Json;
  startTime : Json;
  typedStartTime : Json;
  duration : Json;
  typedDuration : Json;
  labelsList : Json;
  clientLabel : Json;
  modelClientLabel : Json;
}.

(** The isolate scope of the directive: its four bound attributes. *)
Record Scope : Type := {
  s_name : Json;
  s_startTime : Json;
  s_duration : Json;
  s_clientLabel : Json;
}.

Record ApiParams : Type := {
  start_time : Json;
  duration_param : Json;
  client_label : Json;
}.

(** What the controller does that can be observed from outside, in order:
    assignments to [this.state] and calls of the two services. *)
Inductive Effect : Type :=
| StateWrite (s : string)
| ApiGet (url : string) (params : option ApiParams)
| GetRDFValueDescriptor (valueType : string).

(** The success callbacks waiting for a promise; none has a rejection
    callback. *)
Inductive Callback : Type :=
| OnReport
| OnLabels
| OnRDFDatetime
| OnDuration.

(** The [$watch] listeners that are registered inside callbacks. *)
Record Watches : Type := {
  watch_startTime : bool;
  watch_duration : bool;
}.

Record World : Type := {
  ctrl : Controller;
  scope : Scope;
  trace : list Effect;
  pending : list Callback;
  watches : Watches;
}.

Inductive Result (A : Type) : Type :=
| Ok (a : A)
| Throw (e : string).
Arguments Ok {A} a.
Arguments Throw {A} e.

(** Statements run on the world and may throw; what was written before the
    exception stays written. *)
Definition M (A : Type) : Type := World -> Result A * World.

Definition ret {A} (a : A) : M A := fun w => (Ok a, w).

Definition bind {A B} (m : M A) (k : A -> M B) : M B :=
  fun w =>
    match m w with
    | (Ok a, w') => k a w'
    | (Throw e, w') => (Throw e, w')
    end.

Definition throw {A} (e : string) : M A := fun w => (Throw e, w).

Declare Scope report_scope.
Delimit Scope report_scope with report.
Notation "'let*' x := m 'in' k" := (bind m (fun x => k))
  (at level 10, x name, m at level 100, k at level 200) : report_scope.
Notation "m >> k" := (bind m (fun _ => k))
  (at level 100, k at level 200, right associativity) : report_scope.
Local Open Scope report_scope.

Definition this : M Controller := fun w => (Ok (ctrl w), w).
Definition scope_ : M Scope := fun w => (Ok (scope w), w).

Definition lift {A} (e : string) (o : option A) : M A :=
  match o with
  | Some a => ret a
  | None => throw e
  end.

Definition when (b : bool) (m : M unit) : M unit :=
  if b then m else ret tt.

Definition with_ctrl (f : Controller -> Controller) : M unit :=
  fun w => (Ok tt, {| ctrl := f (ctrl w); scope := scope w; trace := trace w;
                      pending := pending w; watches := watches w |}).

Definition with_scope (f : Scope -> Scope) : M unit :=
  fun w => (Ok tt, {| ctrl := ctrl w; scope := f (scope w); trace := trace w;
                      pending := pending w; watches := watches w |}).

Definition with_watches (f : Watches -> Watches) : M unit :=
  fun w => (Ok tt, {| ctrl := ctrl w; scope := scope w; trace := trace w;
                      pending := pending w; watches := f (watches w) |}).

Definition emit (e : Effect) : M unit :=
  fun w => (Ok tt, {| ctrl := ctrl w; scope := scope w;
                      trace := trace w ++ [e];
                      pending := pending w; watches := watches w |}).

Definition await (cb : Callback) : M unit :=
  fun w => (Ok tt, {| ctrl := ctrl w; scope := scope w; trace := trace w;
                      pending := pending w ++ [cb]; watches := watches w |}).

(** Field assignments, [this.f = v] and [this.scope_[f] = v]. *)

Definition set_state (s : string) (c : Controller) : Controller :=
  {| state := s; titleCasedType := titleCasedType c;
     reportData := reportData c; reportDesc := reportDesc c;
     startTime := startTime c; typedStartTime := typedStartTime c;
     duration := duration c; typedDuration := typedDuration c;
     labelsList := labelsList c; clientLabel := clientLabel c;
     modelClientLabel := modelClientLabel c |}.

Definition set_titleCasedType (v : Json) (c : Controller) : Controller :=
  {| state := state c; titleCasedType := v;
     reportData := reportData c; reportDesc := reportDesc c;
     startTime := startTime c; typedStartTime := typedStartTime c;
     duration := duration c; typedDuration := typedDuration c;
     labelsList := labelsList c; clientLabel := clientLabel c;
     modelClientLabel := modelClientLabel c |}.

Definition set_reportData (v : Json) (c : Controller) : Controller :=
  {| state := state c; titleCasedType := titleCasedType c;
     reportData := v; reportDesc := reportDesc c;
     startTime := startTime c; typedStartTime := typedStartTime c;
     duration := duration c; typedDuration := typedDuration c;
     labelsList := labelsList c; clientLabel := clientLabel c;
     modelClientLabel := modelClientLabel c |}.

Definition set_reportDesc (v : Json) (c : Controller) : Controller :=
  {| state := state c; titleCasedType := titleCasedType c;
     reportData := reportData c; reportDesc := v;
     startTime := startTime c; typedStartTime := typedStartTime c;
     duration := duration c; typedDuration := typedDuration c;
     labelsList := labelsList c; clientLabel := clientLabel c;
     modelClientLabel := modelClientLabel c |}.

Definition set_startTime (v : Json) (c : Controller) : Controller :=
  {| state := state c; titleCasedType := titleCasedType c;
     reportData := reportData c; reportDesc := reportDesc c;
     startTime := v; typedStartTime := typedStartTime c;
     duration := duration c; typedDuration := typedDuration c;
     labelsList := labelsList c; clientLabel := clientLabel c;
     modelClientLabel := modelClientLabel c |}.

Definition set_typedStartTime (v : Json) (c : Controller) : Controller :=
  {| state := state c; titleCasedType := titleCasedType c;
     reportData := reportData c; reportDesc := reportDesc c;
     startTime := startTime c; typedStartTime := v;
     duration := duration c; typedDuration := typedDuration c;
     labelsList := labelsList c; clientLabel := clientLabel c;
     modelClientLabel := modelClientLabel c |}.

Definition set_duration (v : Json) (c : Controller) : Controller :=
  {| state := state c; titleCasedType := titleCasedType c;
     reportData := reportData c; reportDesc := reportDesc c;
     startTime := startTime c; typedStartTime := typedStartTime c;
     duration := v; typedDuration := typedDuration c;
     labelsList := labelsList c; clientLabel := clientLabel c;
     modelClientLabel := modelClientLabel c |}.

Definition set_typedDuration (v : Json) (c : Controller) : Controller :=
  {| state := state c; titleCasedType := titleCasedType c;
     reportData := reportData c; reportDesc := reportDesc c;
     startTime := startTime c; typedStartTime := typedStartTime c;
     duration := duration c; typedDuration := v;
     labelsList := labelsList c; clientLabel := clientLabel c;
     modelClientLabel := modelClientLabel c |}.

Definition set_labelsList (v : Json) (c : Controller) : Controller :=
  {| state := state c; titleCasedType := titleCasedType c;
     reportData := reportData c; reportDesc := reportDesc c;
     startTime := startTime c; typedStartTime := typedStartTime c;
     duration := duration c; typedDuration := typedDuration c;
     labelsList := v; clientLabel := clientLabel c;
     modelClientLabel := modelClientLabel c |}.

Definition set_clientLabel (v : Json) (c : Controller) : Controller :=
  {| state := state c; titleCasedType := titleCasedType c;
     reportData := reportData c; reportDesc := reportDesc c;
     startTime := startTime c; typedStartTime := typedStartTime c;
     duration := duration c; typedDuration := typedDuration c;
     labelsList := labelsList c; clientLabel := v;
     modelClientLabel := modelClientLabel c |}.

Definition set_modelClientLabel (v : Json) (c : Controller) : Controller :=
  {| state := state c; titleCasedType := titleCasedType c;
     reportData := reportData c; reportDesc := reportDesc c;
     startTime := startTime c; typedStartTime := typedStartTime c;
     duration := duration c; typedDuration := typedDuration c;
     labelsList := labelsList c; clientLabel := clientLabel c;
     modelClientLabel := v |}.

Definition set_s_startTime (v : Json) (s : Scope) : Scope :=
  {| s_name := s_name s; s_startTime := v;
     s_duration := s_duration s; s_clientLabel := s_clientLabel s |}.

Definition set_s_duration (v : Json) (s : Scope) : Scope :=
  {| s_name := s_name s; s_startTime := s_startTime s;
     s_duration := v; s_clientLabel := s_clientLabel s |}.

Definition set_s_clientLabel (v : Json) (s : Scope) : Scope :=
  {| s_name := s_name s; s_startTime := s_startTime s;
     s_duration := s_duration s; s_clientLabel := v |}.

(** [this.state = s] is an observable effect. *)
Definition write_state (s : string) : M unit :=
  with_ctrl (set_state s) >> emit (StateWrite s).

(** *** The controller's methods *)

Section Controller.

(** The clock at load time, the two helpers of [grrUi.core] that this file
    calls but does not define ([None] when they throw), and the engine's
    conversion of a number or an object to a string. *)
Variable moment_now : Z.
Variable stripTypeInfo : Json -> option Json.
Variable upperCaseToTitleCase : Json -> option string.
Variable number_to_string : Z -> string.
Variable object_to_string : list (string * Json) -> string.

(** ['stats/reports/' + v]: the string conversion of the right operand. *)
Definition to_string (v : Json) : string :=
  match v with
  | JUndefined => "undefined"
  | JNull => "null"
  | JBool true => "true"
  | JBool false => "false"
  | JNum z => number_to_string z
  | JNaN => "NaN"
  | JStr s => s
  | JObj props => object_to_string props
  end.

(** [grrApiService.get(url, params).then(cb)] and
    [grrReflectionService.getRDFValueDescriptor(t).then(cb)]. *)
Definition grrApiService_get (url : string) (params : option ApiParams)
    (cb : Callback) : M unit :=
  emit (ApiGet url params) >> await cb.

Definition getRDFValueDescriptor (valueType : string) (cb : Callback)
    : M unit :=
  emit (GetRDFValueDescriptor valueType) >> await cb.

Definition fetchData_ : M unit :=
  let* sc := scope_ in
  let name := s_name sc in
  if truthy name then
    write_state "LOADING" >>
    let apiUrl := ("stats/reports/" +:+ to_string name)%string in
    let* c := this in
    let apiParams := {| start_time := startTime c;
                        duration_param := duration c;
                        client_label := clientLabel c |} in
    grrApiService_get apiUrl (Some apiParams) OnReport
  else ret tt.

(** The callback of [fetchData_]'s request. *)
Definition onReportResponse (response : Json) : M unit :=
  let* d := lift "TypeError" (prop_get response "data") in
  let* dd := lift "TypeError" (prop_get d "data") in
  let* data := lift "stripTypeInfo" (stripTypeInfo dd) in
  with_ctrl (set_reportData data) >>
  let* d' := lift "TypeError" (prop_get response "data") in
  let* de := lift "TypeError" (prop_get d' "desc") in
  let* desc := lift "stripTypeInfo" (stripTypeInfo de) in
  with_ctrl (set_reportDesc desc) >>
  let* c := this in
  let* ty := lift "TypeError" (prop_get (reportDesc c) "type") in
  let* title := lift "upperCaseToTitleCase" (upperCaseToTitleCase ty) in
  with_ctrl (set_titleCasedType (JStr title)) >>
  write_state "LOADED".

Definition onParamsChange_ : M unit :=
  let* sc := scope_ in
  let startTime := s_startTime sc in
  when (truthy startTime) (with_ctrl (set_startTime startTime)) >>
  when (is_null startTime)
    (with_ctrl (set_startTime (JNum (DEFAULT_START_TIME moment_now)))) >>
  let* sc := scope_ in
  let duration := s_duration sc in
  when (truthy duration) (with_ctrl (set_duration duration)) >>
  when (is_null duration)
    (with_ctrl (set_duration (JNum DEFAULT_DURATION))) >>
  let* sc := scope_ in
  let clientLabel := s_clientLabel sc in
  when (truthy clientLabel) (with_ctrl (set_clientLabel clientLabel)) >>
  when (is_null clientLabel)
    (with_ctrl (set_clientLabel (JStr DEFAULT_CLIENT_LABEL))) >>
  let* sc := scope_ in
  when (truthy (s_name sc)) fetchData_.

Definition refreshReport : M unit :=
  let* c := this in
  let* v := lift "TypeError" (prop_get (typedStartTime c) "value") in
  with_scope (set_s_startTime v) >>
  let* c := this in
  let* v := lift "TypeError" (prop_get (typedDuration c) "value") in
  with_scope (set_s_duration v) >>
  let* c := this in
  with_scope (set_s_clientLabel (modelClientLabel c)).

(** *** The constructor and the remaining callbacks *)

Definition set_watch_startTime (ws : Watches) : Watches :=
  {| watch_startTime := true; watch_duration := watch_duration ws |}.

Definition set_watch_duration (ws : Watches) : Watches :=
  {| watch_startTime := watch_startTime ws; watch_duration := true |}.

(** The fields as the constructor's assignments leave them; a field that is
    only declared is [undefined]. *)
Definition initial_controller : Controller :=
  {| state := "INITIAL";
     titleCasedType := JUndefined;
     reportData := JUndefined;
     reportDesc := JUndefined;
     startTime := JNum (DEFAULT_START_TIME moment_now);
     typedStartTime := JUndefined;
     duration := JNum DEFAULT_DURATION;
     typedDuration := JUndefined;
     labelsList := JUndefined;
     clientLabel := JStr DEFAULT_CLIENT_LABEL;
     modelClientLabel := JStr DEFAULT_CLIENT_LABEL |}.

(** The world after the constructor ran on a scope [sc]. *)
Definition ReportController (sc : Scope) : World :=
  snd ((getRDFValueDescriptor "RDFDatetime" OnRDFDatetime >>
        grrApiService_get "/clients/labels" None OnLabels)
       {| ctrl := initial_controller; scope := sc;
          trace := [StateWrite "INITIAL"]; pending := [];
          watches := {| watch_startTime := false;
                        watch_duration := false |} |}).

(** The listener of [$watch('controller.startTime')]. *)
Definition onStartTimeWatch : M unit :=
  let* c := this in
  let* t := lift "TypeError" (prop_set (typedStartTime c) "value" (startTime c)) in
  with_ctrl (set_typedStartTime t).

(** The listener of [$watch('controller.duration')]. *)
Definition onDurationWatch : M unit :=
  let* c := this in
  let* t := lift "TypeError" (prop_set (typedDuration c) "value" (duration c)) in
  with_ctrl (set_typedDuration t).

(** The listener of [$watch('controller.clientLabel')]. *)
Definition onClientLabelWatch : M unit :=
  let* c := this in
  with_ctrl (set_modelClientLabel (clientLabel c)).

(** The first callback of the descriptor chain; the request for the
    ['Duration'] descriptor is its last statement. *)
Definition onRDFDatetime (rdfDesc : Json) : M unit :=
  let* d := lift "TypeError" (prop_get rdfDesc "default") in
  with_ctrl (set_typedStartTime (angular_copy d)) >>
  let* c := this in
  let* t := lift "TypeError" (prop_set (typedStartTime c) "value" (startTime c)) in
  with_ctrl (set_typedStartTime t) >>
  with_watches set_watch_startTime >>
  getRDFValueDescriptor "Duration" OnDuration.

Definition onDuration (rdfDesc : Json) : M unit :=
  let* d := lift "TypeError" (prop_get rdfDesc "default") in
  with_ctrl (set_typedDuration (angular_copy d)) >>
  let* c := this in
  let* t := lift "TypeError" (prop_set (typedDuration c) "value" (duration c)) in
  with_ctrl (set_typedDuration t) >>
  with_watches set_watch_duration.

Definition onLabels (response : Json) : M unit :=
  let* d := lift "TypeError" (prop_get response "data") in
  let* items := lift "TypeError" (prop_get d "items") in
  let* l := lift "stripTypeInfo" (stripTypeInfo items) in
  with_ctrl (set_labelsList l).

Definition callback (cb : Callback) : Json -> M unit :=
  match cb with
  | OnReport => onReportResponse
  | OnLabels => onLabels
  | OnRDFDatetime => onRDFDatetime
  | OnDuration => onDuration
  end.

(** *** The event loop

    What can happen to a constructed controller.  The framework calls a
    listener only after a watched value changed; here a listener may run at
    any time, which covers every schedule of the framework. *)
Inductive Event : Type :=
| Bind (sc : Scope)                (* the parent sets the bound attributes *)
| ParamsChange                     (* [$watchGroup] calls [onParamsChange_] *)
| Refresh                          (* the "Show report" button *)
| Edit (typedStart typedDur label : Json)  (* the form widgets *)
| Resolve (i : nat) (response : Json)      (* promise [i] is fulfilled *)
| Reject (i : nat)                         (* promise [i] is rejected *)
| WatchStartTime
| WatchDuration
| WatchClientLabel.

Definition settle (i : nat) (w : World) : World :=
  {| ctrl := ctrl w; scope := scope w; trace := trace w;
     pending := delete i (pending w); watches := watches w |}.

(** An exception thrown by a listener or callback is swallowed by the
    framework; the world keeps what was written before it.  [None]: the
    event cannot happen in this world. *)
Definition step (e : Event) (w : World) : option World :=
  match e with
  | Bind sc => Some (snd (with_scope (fun _ => sc) w))
  | ParamsChange => Some (snd (onParamsChange_ w))
  | Refresh => Some (snd (refreshReport w))
  | Edit ts td l =>
      Some (snd (with_ctrl (fun c => set_typedStartTime ts
                              (set_typedDuration td
                                 (set_modelClientLabel l c))) w))
  | Resolve i response =>
      match pending w !! i with
      | Some cb => Some (snd (callback cb response (settle i w)))
      | None => None
      end
  | Reject i =>
      match pending w !! i with
      | Some _ => Some (settle i w)
      | None => None
      end
  | WatchStartTime =>
      if watch_startTime (watches w) then Some (snd (onStartTimeWatch w))
      else None
  | WatchDuration =>
      if watch_duration (watches w) then Some (snd (onDurationWatch w))
      else None
  | WatchClientLabel => Some (snd (onClientLabelWatch w))
  end.

Fixpoint run (es : list Event) (w : World) : option World :=
  match es with
  | [] => Some w
  | e :: es' =>
      match step e w with
      | Some w' => run es' w'
      | None => None
      end
  end.

(** The worlds a controller can be in. *)
Definition reachable (w : World) : Prop :=
  exists sc es, run es (ReportController sc) = Some w.

(** *** Closed forms used in the proofs *)

(** What [onParamsChange_] leaves in a field that holds [old] when the bound
    attribute is [v] and the field's default is [dflt]. *)
Definition stored (old v dflt : Json) : Json :=
  if is_null v then dflt else if truthy v then v else old.

Definition normalized (sc : Scope) (c : Controller) : Controller :=
  set_clientLabel
    (stored (clientLabel c) (s_clientLabel sc) (JStr DEFAULT_CLIENT_LABEL))
    (set_duration
       (stored (duration c) (s_duration sc) (JNum DEFAULT_DURATION))
       (set_startTime
          (stored (startTime c) (s_startTime sc)
             (JNum (DEFAULT_START_TIME moment_now))) c)).

(** The request [fetchData_] sends in a world. *)
Definition report_request (w : World) : Effect :=
  ApiGet ("stats/reports/" +:+ to_string (s_name (scope w)))%string
    (Some {| start_time := startTime (ctrl w);
             duration_param := duration (ctrl w);
             client_label := clientLabel (ctrl w) |}).

(** The world [fetchData_] leaves when the name is truthy. *)
Definition fetching (w : World) : World :=
  {| ctrl := set_state "LOADING" (ctrl w); scope := scope w;
     trace := trace w ++ [StateWrite "LOADING"; report_request w];
     pending := pending w ++ [OnReport]; watches := watches w |}.

Definition with_controller (c : Controller) (w : World) : World :=
  {| ctrl := c; scope := scope w; trace := trace w;
     pending := pending w; watches := watches w |}.

End Controller.

(** The values [this.state] is documented to take. *)
Definition valid_state (s : string) : Prop :=
  s = "INITIAL" \/ s = "LOADING" \/ s = "LOADED".

(** The invariant of the event loop. *)
Definition Inv (w : World) : Prop := valid_state (state (ctrl w)).

(** A statement keeps a property of the world, also when it throws. *)
Definition preserves {A} (P : World -> Prop) (m : M A) : Prop :=
  forall w, P w -> P (snd (m w)).

End Report.

(** ** Sample data *)

Module Samples.
Import Flow.

Definition flow0 : Flow :=
  {| flowId := "F1"; clientId := "C.1000"; lastActiveAt := 1000;
     startedAt := 0; name := "ListProcesses"; creator := "admin";
     args := JUndefined; progress := JUndefined; state := RUNNING |}.

Definition query (ty tg : option string) (off cnt : Z) : FlowResultsQuery :=
  {| q_flowId := "F1"; withType := ty; withTag := tg;
     offset := off; count := cnt |}.

Definition fetched (q : FlowResultsQuery) : FlowResultSet :=
  {| sourceQuery := q; rs_state := FETCHED; items := [] |}.

(** Three windows of the unfiltered results and one of a tagged query. *)
Definition rs_a : FlowResultSet := fetched (query None None 0 100).
Definition rs_b : FlowResultSet := fetched (query None None 100 100).
Definition rs_c : FlowResultSet := fetched (query None None 200 100).
Definition rs_tag : FlowResultSet :=
  fetched (query None (Some "someTag") 0 100).

(** An entry holding two result sets with the same filter key. *)
Definition entry_dup : FlowListEntry :=
  {| flow := flow0; resultSets := [rs_a; rs_b] |}.

Definition entry_ab : FlowListEntry :=
  {| flow := flow0; resultSets := [rs_tag; rs_a] |}.

(** The entry [entry_ab] in a store: its array lives at location 0. *)
Definition store_ab : gmap nat (list FlowResultSet) := {[ 0%nat := [rs_tag; rs_a] ]}.
Definition ref_ab : FlowHeap.FlowListEntryRef :=
  {| FlowHeap.r_flow := flow0; FlowHeap.r_resultSets := 0%nat |}.

(** An instance of the controller's parameters: the script is loaded at
    2020-09-13T12:26:40Z, type stripping is the identity, the title of a
    type tag is the tag itself, and numbers print in decimal. *)
Definition load_time : Z := 1600000000000.
Definition strip (v : Json) : option Json := Some v.
Definition title (v : Json) : option string :=
  match v with JStr s => Some s | _ => None end.
Definition decimal (z : Z) : string :=
  DecimalString.NilZero.string_of_int (Z.to_int z).
Definition object_string (_ : list (string * Json)) : string :=
  "[object Object]".

Definition no_bindings : Report.Scope :=
  {| Report.s_name := JUndefined; Report.s_startTime := JUndefined;
     Report.s_duration := JUndefined; Report.s_clientLabel := JUndefined |}.

Definition bindings (name startTime duration clientLabel : Json)
    : Report.Scope :=
  {| Report.s_name := name; Report.s_startTime := startTime;
     Report.s_duration := duration; Report.s_clientLabel := clientLabel |}.

(** A response of [GET stats/reports/X] and an RDF value descriptor. *)
Definition report_response : Json :=
  JObj [("data", JObj [("data", JObj [("points", JNum 3)]);
                       ("desc", JObj [("type", JStr "Line Chart")])])].
Definition descriptor (v : Json) : Json :=
  JObj [("default", JObj [("value", v)])].

(** The world of a controller constructed on the scope [sc] after the
    events [es] (the constructed world itself if they cannot happen). *)
Definition world_after (es : list Report.Event) (sc : Report.Scope)
    : Report.World :=
  default (Report.ReportController load_time sc)
    (Report.run load_time strip title decimal object_string es
       (Report.ReportController load_time sc)).

(** Report X is selected; both descriptors arrived and the user edited the
    time range and the label. *)
Definition scope_X : Report.Scope :=
  bindings (JStr "X") JUndefined JUndefined JUndefined.
Definition world_edited : Report.World :=
  world_after
    [Report.Resolve 0 (descriptor (JNum 0));
     Report.Resolve 1 (descriptor (JNum 0));
     Report.Edit (JObj [("value", JNum 77)]) (JObj [("value", JNum 3600)])
       (JStr "servers")]
    scope_X.

(** Worlds of a controller for report X: after one and after two runs of
    the handler, and after both descriptors arrived. *)
Definition world_fetching : Report.World :=
  world_after [Report.ParamsChange] scope_X.
Definition world_two_fetches : Report.World :=
  world_after [Report.ParamsChange; Report.ParamsChange] scope_X.
Definition world_described : Report.World :=
  world_after
    [Report.Resolve 0 (descriptor (JNum 0));
     Report.Resolve 1 (descriptor (JNum 0))]
    scope_X.

(** Report X is selected; only the RDFDatetime descriptor arrived, and the
    user edited the start time and the label. *)
Definition world_half_described : Report.World :=
  world_after
    [Report.Resolve 0 (descriptor (JNum 0));
     Report.Edit (JObj [("value", JNum 77)]) JUndefined (JStr "servers")]
    scope_X.

End Samples.

(** ** Building an entry

    The flow list creates an entry from a flow and merges the result sets
    into it as they arrive. *)

Module FlowBuild.
Import Flow.

Definition build (f : Flow) (arrivals : list FlowResultSet) : FlowListEntry :=
  fold_left updateFlowListEntryResultSet arrivals (flowListEntryFromFlow f).

(** The filter keys of an entry's result sets, in order. *)
Definition keys (fle : FlowListEntry) : list (option string * option string) :=
  map filter_key (resultSets fle).

End FlowBuild.

(** ** Observations on the controller's worlds *)

Module ReportFacts.
Import Report.

(** A request for a report: the only [get] that carries parameters. *)
Definition is_report_request (e : Effect) : bool :=
  match e with
  | ApiGet _ (Some _) => true
  | _ => false
  end.

Definition has_report_request (tr : list Effect) : bool :=
  existsb is_report_request tr.

Definition is_duration_request (e : Effect) : bool :=
  match e with
  | GetRDFValueDescriptor t => String.eqb t "Duration"
  | _ => false
  end.

(** How many times the ['Duration'] descriptor was requested. *)
Definition duration_requests (tr : list Effect) : nat :=
  length (List.filter is_duration_request tr).

Definition is_OnReport (cb : Callback) : bool :=
  match cb with OnReport => true | _ => false end.
Definition is_OnRDFDatetime (cb : Callback) : bool :=
  match cb with OnRDFDatetime => true | _ => false end.
Definition is_OnDuration (cb : Callback) : bool :=
  match cb with OnDuration => true | _ => false end.

(** How many pending callbacks satisfy [p]. *)
Definition awaiting (p : Callback -> bool) (l : list Callback) : nat :=
  length (List.filter p l).

(** A stored parameter is a truthy value or the parameter's default. *)
Definition param_ok (dflt v : Json) : Prop := truthy v = true \/ v = dflt.

Definition fields_ok (moment_now : Z) (c : Controller) : Prop :=
  param_ok (JNum (DEFAULT_START_TIME moment_now)) (startTime c) /\
  param_ok (JNum DEFAULT_DURATION) (duration c) /\
  param_ok (JStr DEFAULT_CLIENT_LABEL) (clientLabel c).

Definition params_ok (moment_now : Z) (p : ApiParams) : Prop :=
  param_ok (JNum (DEFAULT_START_TIME moment_now)) (start_time p) /\
  param_ok (JNum DEFAULT_DURATION) (duration_param p) /\
  param_ok (JStr DEFAULT_CLIENT_LABEL) (client_label p).

Definition effect_ok (moment_now : Z) (e : Effect) : Prop :=
  match e with
  | ApiGet _ (Some p) => params_ok moment_now p
  | _ => True
  end.

(** The stored parameters and the parameters of the requests sent so far
    are in order. *)
Definition requests_ok (moment_now : Z) (w : World) : Prop :=
  fields_ok moment_now (ctrl w) /\ Forall (effect_ok moment_now) (trace w).

(** A report was requested and the state has left INITIAL. *)
Definition fetched (w : World) : Prop :=
  state (ctrl w) <> "INITIAL"%string /\ has_report_request (trace w) = true.

(** Either no report was requested yet, no report callback is pending and
    the state is INITIAL, or a report was requested. *)
Definition fetch_inv (w : World) : Prop :=
  (state (ctrl w) = "INITIAL"%string /\
   has_report_request (trace w) = false /\
   awaiting is_OnReport (pending w) = 0%nat) \/
  fetched w.

(** The descriptor chain: the RDFDatetime callback is pending or has
    requested the Duration descriptor, never both and never twice; the
    Duration callback is pending or has registered its watch only after
    that request; the start-time watch is registered exactly when the
    request was made. *)
Definition desc_inv (w : World) : Prop :=
  (awaiting is_OnRDFDatetime (pending w) + duration_requests (trace w) <= 1)%nat /\
  (awaiting is_OnDuration (pending w) + Nat.b2n (watch_duration (watches w))
   <= duration_requests (trace w))%nat /\
  (watch_startTime (watches w) = true <-> duration_requests (trace w) = 1%nat).

(** The typed fields and the edited label agree with the stored
    parameters, as the three watch listeners leave them. *)
Definition in_sync (c : Controller) : Prop :=
  prop_get (typedStartTime c) "value" = Some (startTime c) /\
  prop_get (typedDuration c) "value" = Some (duration c) /\
  modelClientLabel c = clientLabel c.

End ReportFacts.

(** * Properties of the flow utilities *)

Section FlowProperties.
Import Flow Samples.

Lemma strict_eq_true a b : strict_eq a b = true <-> a = b.
Proof. unfold strict_eq. apply bool_decide_eq_true. Qed.

Lemma same_filter_true rs resultSet :
  same_filter rs resultSet = true <-> filter_key rs = filter_key resultSet.
Proof.
  unfold same_filter, filter_key.
  rewrite andb_true_iff, !strict_eq_true.
  split; [intros [-> ->]; reflexivity | intros [= -> ->]; auto].
Qed.

Lemma same_filter_false rs resultSet :
  same_filter rs resultSet = false <-> filter_key rs <> filter_key resultSet.
Proof.
  rewrite <- same_filter_true. destruct (same_filter rs resultSet); split;
    congruence.
Qed.

Lemma same_filter_refl rs : same_filter rs rs = true.
Proof. apply same_filter_true. reflexivity. Qed.

Lemma find_pred_same_filter resultSet rs :
  find_pred (withType (sourceQuery resultSet)) (withTag (sourceQuery resultSet))
    rs = same_filter rs resultSet.
Proof. unfold find_pred, same_filter. apply andb_comm. Qed.

Lemma update_loop_spec resultSet l : forall acc pushed,
  update_loop resultSet l acc pushed =
  (acc ++ map (replaced resultSet) l, pushed || matches resultSet l).
Proof.
  induction l as [|rs l IH]; intros acc pushed; simpl.
  - rewrite app_nil_r, orb_false_r. reflexivity.
  - unfold replaced at 1. destruct (same_filter rs resultSet); rewrite IH;
      rewrite <- app_assoc; simpl; [rewrite orb_true_r | ]; reflexivity.
Qed.

Lemma map_replaced_no_match resultSet l :
  matches resultSet l = false -> map (replaced resultSet) l = l.
Proof.
  induction l as [|rs l IH]; simpl; [reflexivity|].
  intros [Hrs Hl]%orb_false_iff. unfold replaced at 1.
  rewrite Hrs, IH by assumption. reflexivity.
Qed.

(** The result sets of the updated entry, in closed form. *)
Lemma resultSets_update fle resultSet :
  resultSets (updateFlowListEntryResultSet fle resultSet) =
  if matches resultSet (resultSets fle)
  then map (replaced resultSet) (resultSets fle)
  else resultSets fle ++ [resultSet].
Proof.
  unfold updateFlowListEntryResultSet. rewrite update_loop_spec. simpl.
  destruct (matches resultSet (resultSets fle)) eqn:E; simpl; [reflexivity|].
  rewrite map_replaced_no_match by assumption. reflexivity.
Qed.

Lemma flow_update fle resultSet :
  flow (updateFlowListEntryResultSet fle resultSet) = flow fle.
Proof.
  unfold updateFlowListEntryResultSet.
  destruct (update_loop _ _ _ _). reflexivity.
Qed.

Lemma matches_true resultSet l :
  matches resultSet l = true <->
  exists rs, In rs l /\ filter_key rs = filter_key resultSet.
Proof.
  unfold matches. rewrite existsb_exists.
  split; intros (rs & Hin & H); exists rs; split; auto;
    apply same_filter_true; assumption.
Qed.

Lemma matches_false resultSet l :
  matches resultSet l = false <->
  forall rs, In rs l -> filter_key rs <> filter_key resultSet.
Proof.
  split.
  - intros H rs Hin Hk.
    assert (matches resultSet l = true) by (apply matches_true; eauto).
    congruence.
  - intros H. destruct (matches resultSet l) eqn:E; [|reflexivity].
    apply matches_true in E as (rs & Hin & Hk). destruct (H rs Hin Hk).
Qed.

Lemma replaced_idem resultSet rs :
  replaced resultSet (replaced resultSet rs) = replaced resultSet rs.
Proof.
  unfold replaced. destruct (same_filter rs resultSet) eqn:E.
  - rewrite same_filter_refl. reflexivity.
  - rewrite E. reflexivity.
Qed.

Lemma filter_key_replaced resultSet rs :
  filter_key (replaced resultSet rs) = filter_key rs.
Proof.
  unfold replaced. destruct (same_filter rs resultSet) eqn:E; [|reflexivity].
  symmetry. apply same_filter_true. assumption.
Qed.

Lemma matches_map_replaced resultSet l :
  matches resultSet (map (replaced resultSet) l) = matches resultSet l.
Proof.
  induction l as [|rs l IH]; simpl; [reflexivity|]. f_equal; [|exact IH].
  destruct (same_filter rs resultSet) eqn:E.
  - apply same_filter_true. rewrite filter_key_replaced.
    apply same_filter_true. assumption.
  - apply same_filter_false. rewrite filter_key_replaced.
    apply same_filter_false. assumption.
Qed.

Lemma matches_app resultSet l1 l2 :
  matches resultSet (l1 ++ l2) = matches resultSet l1 || matches resultSet l2.
Proof. apply existsb_app. Qed.

(** With pairwise distinct keys, the replacement touches one position. *)
Lemma map_replaced_unique resultSet l :
  NoDup (map filter_key l) -> matches resultSet l = true ->
  exists l1 old l2,
    l = l1 ++ old :: l2 /\
    filter_key old = filter_key resultSet /\
    map (replaced resultSet) l = l1 ++ resultSet :: l2 /\
    matches resultSet (l1 ++ l2) = false.
Proof.
  induction l as [|rs l IH]; simpl; [discriminate|].
  intros Hnd Hm. apply NoDup_cons in Hnd as [Hnotin Hnd].
  destruct (same_filter rs resultSet) eqn:E.
  - exists [], rs, l. simpl. unfold replaced at 1. rewrite E.
    assert (Hl : matches resultSet l = false).
    { apply matches_false. intros r Hin Hk. apply Hnotin.
      apply same_filter_true in E. rewrite E, <- Hk.
      apply list_elem_of_In, in_map, Hin. }
    rewrite map_replaced_no_match by assumption.
    repeat split; auto; apply same_filter_true; assumption.
  - simpl in Hm. destruct (IH Hnd Hm) as (l1 & old & l2 & -> & Hk & Hmap & Hno).
    exists (rs :: l1), old, l2. simpl. unfold replaced at 1. rewrite E, Hmap.
    repeat split; auto; unfold matches in *; simpl; rewrite E; assumption.
Qed.

(** Entries built from [flowListEntryFromFlow] by updates keep the filter
    keys of their result sets pairwise distinct. *)
Lemma update_keeps_keys_distinct fle resultSet :
  NoDup (map filter_key (resultSets fle)) ->
  NoDup (map filter_key
           (resultSets (updateFlowListEntryResultSet fle resultSet))).
Proof.
  intros Hnd. rewrite resultSets_update.
  destruct (matches resultSet (resultSets fle)) eqn:E.
  - rewrite map_map.
    rewrite (map_ext _ filter_key)
      by (intros rs; apply filter_key_replaced).
    exact Hnd.
  - rewrite map_app. apply NoDup_app. split; [exact Hnd|].
    split; [|apply NoDup_singleton].
    intros k Hk [<-|[]]%list_elem_of_In.
    apply list_elem_of_In, in_map_iff in Hk as (rs & Hkey & Hin).
    eapply matches_false; eauto.
Qed.

Lemma fresh_entry_keys_distinct f :
  NoDup (map filter_key (resultSets (flowListEntryFromFlow f))).
Proof. apply NoDup_nil_2. Qed.

Example update_replace :
  resultSets (updateFlowListEntryResultSet entry_ab rs_b) = [rs_tag; rs_b].
Proof. reflexivity. Qed.

Example update_append :
  resultSets (updateFlowListEntryResultSet (flowListEntryFromFlow flow0) rs_tag)
  = [rs_tag].
Proof. reflexivity. Qed.

(** C1, as stated, fails: on an entry that holds two result sets with the
    filter key of the new set, both are replaced, so the result is not the
    input with one entry exchanged for the new set. *)
Lemma update_replaces_one_counterexample :
  (exists rs, In rs (resultSets entry_dup) /\ filter_key rs = filter_key rs_c) /\
  resultSets (updateFlowListEntryResultSet entry_dup rs_c) = [rs_c; rs_c] /\
  ~ (exists l1 old l2,
       resultSets entry_dup = l1 ++ old :: l2 /\
       resultSets (updateFlowListEntryResultSet entry_dup rs_c) =
       l1 ++ rs_c :: l2).
Proof.
  split; [exists rs_a; split; [left|]; reflexivity|].
  split; [reflexivity|].
  intros (l1 & old & l2 & H1 & H2).
  change (resultSets (updateFlowListEntryResultSet entry_dup rs_c))
    with [rs_c; rs_c] in H2.
  change (resultSets entry_dup) with [rs_a; rs_b] in H1.
  destruct l1 as [|x [|y l1]]; simpl in *.
  - injection H1 as _ <-. discriminate H2.
  - injection H1 as <- _ _. discriminate H2.
  - injection H1 as _ _ H1. destruct l1; discriminate H1.
Qed.

(** C1 (amended): every existing result set with the (withType, withTag)
    pair of the new set is replaced by the new set and the others stay as
    they are; when the pairs of the existing sets are pairwise distinct this
    replaces exactly one entry; when no existing set matches, the new set is
    appended. *)
Theorem update_replaces_matching_or_appends fle resultSet :
  ((exists rs, In rs (resultSets fle) /\
               filter_key rs = filter_key resultSet) ->
   resultSets (updateFlowListEntryResultSet fle resultSet) =
   map (replaced resultSet) (resultSets fle)) /\
  ((exists rs, In rs (resultSets fle) /\
               filter_key rs = filter_key resultSet) ->
   NoDup (map filter_key (resultSets fle)) ->
   exists l1 old l2,
     resultSets fle = l1 ++ old :: l2 /\
     filter_key old = filter_key resultSet /\
     resultSets (updateFlowListEntryResultSet fle resultSet) =
     l1 ++ resultSet :: l2 /\
     (forall rs, In rs (l1 ++ l2) -> filter_key rs <> filter_key resultSet)) /\
  ((forall rs, In rs (resultSets fle) ->
               filter_key rs <> filter_key resultSet) ->
   resultSets (updateFlowListEntryResultSet fle resultSet) =
   resultSets fle ++ [resultSet]).
Proof.
  rewrite resultSets_update. repeat split.
  - intros ->%matches_true. reflexivity.
  - intros Hm%matches_true Hnd. rewrite Hm.
    destruct (map_replaced_unique resultSet _ Hnd Hm)
      as (l1 & old & l2 & Hl & Hk & Hmap & Hno).
    exists l1, old, l2. repeat split; auto.
    apply matches_false. assumption.
  - intros ->%matches_false. reflexivity.
Qed.

Lemma update_replaces_matching_or_appends_witness :
  (exists l1 old l2,
     resultSets entry_ab = l1 ++ old :: l2 /\
     filter_key old = filter_key rs_b /\
     resultSets (updateFlowListEntryResultSet entry_ab rs_b) =
     l1 ++ rs_b :: l2 /\
     (forall rs, In rs (l1 ++ l2) -> filter_key rs <> filter_key rs_b)) /\
  resultSets (updateFlowListEntryResultSet entry_ab rs_b) =
  map (replaced rs_b) (resultSets entry_ab) /\
  resultSets (updateFlowListEntryResultSet (flowListEntryFromFlow flow0) rs_b) =
  resultSets (flowListEntryFromFlow flow0) ++ [rs_b].
Proof.
  assert (Hm : exists rs, In rs (resultSets entry_ab) /\
                          filter_key rs = filter_key rs_b)
    by (exists rs_a; split; [right; left|]; reflexivity).
  split; [|split].
  - apply (proj1 (proj2 (update_replaces_matching_or_appends entry_ab rs_b)));
      [exact Hm|].
    repeat constructor; simpl; rewrite ?list_elem_of_In; simpl;
      intuition discriminate.
  - apply (proj1 (update_replaces_matching_or_appends entry_ab rs_b)), Hm.
  - apply (proj2 (proj2 (update_replaces_matching_or_appends
                           (flowListEntryFromFlow flow0) rs_b))).
    intros rs [].
Defined.

(** C2: applying the same result set twice gives the entry that applying
    it once gives. *)
Theorem update_idempotent fle resultSet :
  updateFlowListEntryResultSet
    (updateFlowListEntryResultSet fle resultSet) resultSet =
  updateFlowListEntryResultSet fle resultSet.
Proof.
  assert (Heq : forall a b : FlowListEntry,
             flow a = flow b -> resultSets a = resultSets b -> a = b)
    by (intros [] []; simpl; congruence).
  apply Heq; [apply flow_update|].
  rewrite resultSets_update.
  rewrite (resultSets_update fle).
  destruct (matches resultSet (resultSets fle)) eqn:E.
  - rewrite matches_map_replaced, E, map_map.
    apply map_ext. intros rs. apply replaced_idem.
  - rewrite matches_app, E. simpl. rewrite same_filter_refl. simpl.
    rewrite map_app, map_replaced_no_match by assumption. simpl.
    unfold replaced. rewrite same_filter_refl. reflexivity.
Qed.

Lemma find_pointwise {A} (f g : A -> bool) (l : list A) :
  (forall x, f x = g x) -> List.find f l = List.find g l.
Proof.
  intros Hfg. induction l as [|x l IH]; simpl; [reflexivity|].
  rewrite Hfg, IH. reflexivity.
Qed.

Lemma find_map_replaced resultSet l :
  matches resultSet l = true ->
  List.find (fun rs => same_filter rs resultSet) (map (replaced resultSet) l)
  = Some resultSet.
Proof.
  induction l as [|rs l IH]; simpl; [discriminate|].
  change (replaced resultSet rs)
    with (if same_filter rs resultSet then resultSet else rs).
  destruct (same_filter rs resultSet) eqn:E; simpl.
  - rewrite same_filter_refl. reflexivity.
  - rewrite E. exact IH.
Qed.

Lemma find_app_no_match resultSet l :
  matches resultSet l = false ->
  List.find (fun rs => same_filter rs resultSet) (l ++ [resultSet])
  = Some resultSet.
Proof.
  induction l as [|rs l IH]; simpl.
  - rewrite same_filter_refl. reflexivity.
  - intros [-> Hl]%orb_false_iff. auto.
Qed.

(** C9: looking up the filter key of a result set that was just merged
    returns that result set. *)
Theorem find_after_update fle resultSet :
  findFlowListEntryResultSet
    (updateFlowListEntryResultSet fle resultSet)
    (withType (sourceQuery resultSet)) (withTag (sourceQuery resultSet))
  = Some resultSet.
Proof.
  unfold findFlowListEntryResultSet. rewrite resultSets_update.
  rewrite (find_pointwise _ (fun rs => same_filter rs resultSet))
    by (intros rs; apply find_pred_same_filter).
  destruct (matches resultSet (resultSets fle)) eqn:E.
  - apply find_map_replaced, E.
  - apply find_app_no_match, E.
Qed.

Lemma lookup_map_replaced resultSet (l : list FlowResultSet) i rs :
  l !! i = Some rs ->
  map (replaced resultSet) l !! i = Some (replaced resultSet rs).
Proof.
  revert i. induction l as [|x l IH]; intros [|i]; simpl; try discriminate.
  - intros [= ->]. reflexivity.
  - apply IH.
Qed.

Lemma replaced_other resultSet rs :
  filter_key rs <> filter_key resultSet -> replaced resultSet rs = rs.
Proof.
  intros H%same_filter_false. unfold replaced. rewrite H. reflexivity.
Qed.

(** C10: the update keeps every existing result set that does not match at
    its position (a matching one gives its position to the new set), keeps
    the length when some set matches and otherwise adds the new set at the
    end; a fresh entry has no result sets and every lookup in it fails. *)
Theorem update_preserves_order_and_count fle resultSet :
  (forall i rs,
     resultSets fle !! i = Some rs ->
     resultSets (updateFlowListEntryResultSet fle resultSet) !! i =
     Some (replaced resultSet rs)) /\
  (forall i rs,
     resultSets fle !! i = Some rs ->
     filter_key rs <> filter_key resultSet ->
     resultSets (updateFlowListEntryResultSet fle resultSet) !! i = Some rs) /\
  ((exists rs, In rs (resultSets fle) /\
               filter_key rs = filter_key resultSet) ->
   length (resultSets (updateFlowListEntryResultSet fle resultSet)) =
   length (resultSets fle)) /\
  ((forall rs, In rs (resultSets fle) ->
               filter_key rs <> filter_key resultSet) ->
   length (resultSets (updateFlowListEntryResultSet fle resultSet)) =
   S (length (resultSets fle)) /\
   resultSets (updateFlowListEntryResultSet fle resultSet) =
   resultSets fle ++ [resultSet]) /\
  (forall f, resultSets (flowListEntryFromFlow f) = []) /\
  (forall f ty tg,
     findFlowListEntryResultSet (flowListEntryFromFlow f) ty tg = None).
Proof.
  assert (Hpos : forall i rs,
             resultSets fle !! i = Some rs ->
             resultSets (updateFlowListEntryResultSet fle resultSet) !! i =
             Some (replaced resultSet rs)).
  { intros i rs Hi. rewrite resultSets_update.
    destruct (matches resultSet (resultSets fle)) eqn:E.
    - apply lookup_map_replaced, Hi.
    - rewrite lookup_app_l by (eapply lookup_lt_Some, Hi).
      rewrite Hi. f_equal. symmetry. apply replaced_other.
      eapply matches_false; [exact E|].
      apply list_elem_of_In, list_elem_of_lookup. eauto. }
  split; [exact Hpos|]. split; [|split; [|split; [|split]]].
  - intros i rs Hi Hk. rewrite (Hpos i rs Hi), replaced_other by assumption.
    reflexivity.
  - intros Hm%matches_true. rewrite resultSets_update, Hm.
    rewrite length_map. reflexivity.
  - intros Hm%matches_false. rewrite resultSets_update, Hm.
    rewrite length_app. simpl. split; [lia|reflexivity].
  - reflexivity.
  - reflexivity.
Qed.

Lemma update_preserves_order_and_count_witness :
  resultSets (updateFlowListEntryResultSet entry_ab rs_b) !! 0%nat =
  Some rs_tag /\
  length (resultSets (updateFlowListEntryResultSet entry_ab rs_b)) = 2%nat /\
  resultSets (updateFlowListEntryResultSet entry_ab (fetched (query (Some "T") None 0 10)))
  = [rs_tag; rs_a; fetched (query (Some "T") None 0 10)].
Proof.
  pose proof (update_preserves_order_and_count entry_ab rs_b)
    as (_ & Hkeep & Hlen & _).
  pose proof (update_preserves_order_and_count entry_ab
                (fetched (query (Some "T") None 0 10)))
    as (_ & _ & _ & Happ & _).
  split; [|split].
  - apply Hkeep; [reflexivity|discriminate].
  - apply Hlen. exists rs_a. split; [right; left|]; reflexivity.
  - apply Happ. intros rs [<-|[<-|[]]]; discriminate.
Defined.

(** ** The utilities on the store *)

Lemma for_of_spec resultSet src dst (items : list FlowResultSet) fuel :
  forall i acc pushed (σ : gmap nat (list FlowResultSet)),
    σ !! src = Some items -> σ !! dst = Some acc -> src <> dst ->
    (length items - i < fuel)%nat ->
    FlowHeap.for_of fuel resultSet src i dst pushed σ =
    Some (snd (update_loop resultSet (drop i items) acc pushed),
          <[dst := fst (update_loop resultSet (drop i items) acc pushed)]> σ).
Proof.
  induction fuel as [|fuel IH]; intros i acc pushed σ Hsrc Hdst Hne Hfuel;
    [lia|].
  simpl. rewrite Hsrc. destruct (items !! i) as [rs|] eqn:Hi.
  - pose proof (lookup_lt_Some _ _ _ Hi) as Hlt.
    rewrite (drop_S _ _ _ Hi). simpl. unfold FlowHeap.push. rewrite Hdst.
    destruct (same_filter rs resultSet);
      (erewrite IH;
       [ rewrite insert_insert_eq; reflexivity
       | rewrite lookup_insert_ne by auto; exact Hsrc
       | apply lookup_insert_eq
       | exact Hne
       | lia ]).
  - apply lookup_ge_None in Hi. rewrite drop_ge by exact Hi. simpl.
    rewrite insert_id by exact Hdst. reflexivity.
Qed.

Lemma fresh_unallocated (σ : gmap nat (list FlowResultSet)) :
  σ !! fresh (dom σ) = None.
Proof. apply not_elem_of_dom, is_fresh. Qed.

(** The store version computes what the function on values computes, in a
    freshly allocated array, and leaves every allocated array as it was. *)
Lemma update_on_store (σ : gmap nat (list FlowResultSet)) ref fle resultSet fuel :
  FlowHeap.view σ ref = Some fle ->
  (length (resultSets fle) < fuel)%nat ->
  exists ref' σ',
    FlowHeap.updateFlowListEntryResultSet fuel ref resultSet σ =
    Some (ref', σ') /\
    FlowHeap.view σ' ref' =
    Some (updateFlowListEntryResultSet fle resultSet) /\
    σ !! FlowHeap.r_resultSets ref' = None /\
    (forall a, is_Some (σ !! a) -> σ' !! a = σ !! a).
Proof.
  unfold FlowHeap.view. destruct (σ !! FlowHeap.r_resultSets ref)
    as [items|] eqn:Hsrc; [|discriminate].
  intros [= <-] Hfuel. simpl in Hfuel.
  pose proof (fresh_unallocated σ) as Hfresh.
  assert (Hne : FlowHeap.r_resultSets ref <> fresh (dom σ)).
  { intros Heq. rewrite Heq, Hfresh in Hsrc. discriminate Hsrc. }
  unfold FlowHeap.updateFlowListEntryResultSet, FlowHeap.alloc.
  erewrite for_of_spec;
    [ | rewrite lookup_insert_ne by auto; exact Hsrc
      | apply lookup_insert_eq | exact Hne | lia ].
  rewrite drop_0, insert_insert_eq.
  unfold updateFlowListEntryResultSet. simpl.
  destruct (update_loop resultSet items [] false) as [acc pushed]. simpl.
  destruct pushed; simpl.
  - eexists _, _. split; [reflexivity|]. simpl.
    rewrite lookup_insert_eq. repeat split; auto.
    intros a [x Ha]. rewrite lookup_insert_ne by congruence. reflexivity.
  - unfold FlowHeap.push. rewrite lookup_insert_eq, insert_insert_eq.
    eexists _, _. split; [reflexivity|]. simpl.
    rewrite lookup_insert_eq. repeat split; auto.
    intros a [x Ha]. rewrite lookup_insert_ne by congruence. reflexivity.
Qed.

Lemma find_pred_true ty tg rs :
  find_pred ty tg rs = true ->
  withType (sourceQuery rs) = ty /\ withTag (sourceQuery rs) = tg.
Proof.
  unfold find_pred. rewrite andb_true_iff, !strict_eq_true. auto.
Qed.

(** C8: on an entry whose array is allocated, the update returns an entry
    with the input's flow and a new array, writes to no array that existed
    before (the input entry reads back unchanged); the lookup returns the
    first result set with the requested withType and withTag, or undefined,
    and leaves the store as it is. *)
Theorem update_and_find_are_pure
    (σ : gmap nat (list FlowResultSet)) ref fle resultSet fuel ty tg :
  FlowHeap.view σ ref = Some fle ->
  (length (resultSets fle) < fuel)%nat ->
  (exists ref' σ',
     FlowHeap.updateFlowListEntryResultSet fuel ref resultSet σ =
     Some (ref', σ') /\
     FlowHeap.view σ' ref' =
     Some (updateFlowListEntryResultSet fle resultSet) /\
     FlowHeap.r_flow ref' = FlowHeap.r_flow ref /\
     flow (updateFlowListEntryResultSet fle resultSet) = flow fle /\
     σ !! FlowHeap.r_resultSets ref' = None /\
     (forall a, is_Some (σ !! a) -> σ' !! a = σ !! a) /\
     FlowHeap.view σ' ref = Some fle) /\
  FlowHeap.findFlowListEntryResultSet ref ty tg σ =
  Some (findFlowListEntryResultSet fle ty tg, σ) /\
  (forall rs,
     findFlowListEntryResultSet fle ty tg = Some rs ->
     In rs (resultSets fle) /\
     withType (sourceQuery rs) = ty /\ withTag (sourceQuery rs) = tg) /\
  (findFlowListEntryResultSet fle ty tg = None ->
   forall rs, In rs (resultSets fle) ->
     ~ (withType (sourceQuery rs) = ty /\ withTag (sourceQuery rs) = tg)).
Proof.
  intros Hview Hfuel.
  destruct (update_on_store σ ref fle resultSet fuel Hview Hfuel)
    as (ref' & σ' & Hrun & Hview' & Hfresh & Hframe).
  split; [|split; [|split]].
  - exists ref', σ'. split; [exact Hrun|]. split; [exact Hview'|].
    assert (Hflow : FlowHeap.r_flow ref' = FlowHeap.r_flow ref).
    { unfold FlowHeap.updateFlowListEntryResultSet, FlowHeap.alloc in Hrun.
      destruct (FlowHeap.for_of _ _ _ _ _ _ _) as [[p σ2]|];
        [|discriminate].
      destruct (if negb p then _ else _); [|discriminate].
      injection Hrun as <- _. reflexivity. }
    repeat split; auto using flow_update.
    unfold FlowHeap.view in *.
    destruct (σ !! FlowHeap.r_resultSets ref) eqn:Hsrc; [|discriminate].
    rewrite Hframe, Hsrc by (rewrite Hsrc; eauto). exact Hview.
  - unfold FlowHeap.findFlowListEntryResultSet, FlowHeap.view in *.
    destruct (σ !! FlowHeap.r_resultSets ref); [|discriminate].
    injection Hview as <-. reflexivity.
  - unfold findFlowListEntryResultSet. intros rs Hfind.
    apply find_some in Hfind as [Hin Hp]. split; [exact Hin|].
    apply find_pred_true, Hp.
  - unfold findFlowListEntryResultSet. intros Hfind rs Hin [Hty Htg].
    pose proof (find_none _ _ Hfind rs Hin) as Hp.
    unfold find_pred in Hp. subst ty tg.
    unfold strict_eq in Hp. rewrite !bool_decide_eq_true_2 in Hp by reflexivity.
    discriminate Hp.
Qed.

Lemma update_and_find_are_pure_witness :
  exists ref' σ',
    FlowHeap.updateFlowListEntryResultSet 3 ref_ab rs_b store_ab =
    Some (ref', σ') /\
    FlowHeap.view σ' ref' = Some (updateFlowListEntryResultSet entry_ab rs_b) /\
    FlowHeap.view σ' ref_ab = Some entry_ab.
Proof.
  destruct (update_and_find_are_pure store_ab ref_ab entry_ab rs_b 3 None None)
    as [(ref' & σ' & H1 & H2 & _ & _ & _ & _ & H3) _].
  - reflexivity.
  - simpl. lia.
  - exists ref', σ'. auto.
Defined.

End FlowProperties.

(** * Properties of the report controller *)

Section ReportProperties.
Import Report Samples.
Local Open Scope report_scope.

Variable moment_now : Z.
Variable stripTypeInfo : Json -> option Json.
Variable upperCaseToTitleCase : Json -> option string.
Variable number_to_string : Z -> string.
Variable object_to_string : list (string * Json) -> string.

Abbreviation fetchData_ := (Report.fetchData_ number_to_string object_to_string).
Abbreviation onParamsChange_ :=
  (Report.onParamsChange_ moment_now number_to_string object_to_string).
Abbreviation onReportResponse :=
  (Report.onReportResponse stripTypeInfo upperCaseToTitleCase).
Abbreviation fetching := (Report.fetching number_to_string object_to_string).
Abbreviation report_request :=
  (Report.report_request number_to_string object_to_string).
Abbreviation normalized := (Report.normalized moment_now).
Abbreviation step :=
  (Report.step moment_now stripTypeInfo upperCaseToTitleCase
     number_to_string object_to_string).
Abbreviation run :=
  (Report.run moment_now stripTypeInfo upperCaseToTitleCase
     number_to_string object_to_string).
Abbreviation reachable :=
  (Report.reachable moment_now stripTypeInfo upperCaseToTitleCase
     number_to_string object_to_string).
Abbreviation ReportController := (Report.ReportController moment_now).

Lemma fetchData_spec w :
  fetchData_ w =
  if truthy (s_name (scope w)) then (Ok tt, fetching w) else (Ok tt, w).
Proof.
  destruct w as [c sc tr pe ws].
  unfold Report.fetchData_, Report.fetching, bind, scope_. simpl.
  destruct (truthy (s_name sc)); [|reflexivity].
  unfold write_state, grrApiService_get, bind, with_ctrl, emit, await, this.
  simpl. rewrite <- app_assoc. reflexivity.
Qed.

Lemma bind_scope {A} (k : Scope -> M A) w :
  (let* sc := scope_ in k sc) w = k (scope w) w.
Proof. reflexivity. Qed.

Lemma bind_this {A} (k : Controller -> M A) w :
  (let* c := this in k c) w = k (ctrl w) w.
Proof. reflexivity. Qed.

Lemma bind_with_ctrl {A} f (k : M A) w :
  (with_ctrl f >> k) w = k (with_controller (f (ctrl w)) w).
Proof. reflexivity. Qed.

Lemma bind_when_with_ctrl {A} (b : bool) f (k : M A) w :
  (when b (with_ctrl f) >> k) w =
  k (with_controller (if b then f (ctrl w) else ctrl w) w).
Proof. destruct b, w; reflexivity. Qed.

Lemma bind_lift_Some {A B} e (o : option A) a (k : A -> M B) w :
  o = Some a -> (let* x := lift e o in k x) w = k a w.
Proof. intros ->. reflexivity. Qed.

Lemma onParamsChange_spec w :
  onParamsChange_ w =
  let w1 := with_controller (normalized (scope w) (ctrl w)) w in
  if truthy (s_name (scope w)) then (Ok tt, fetching w1) else (Ok tt, w1).
Proof.
  unfold Report.onParamsChange_.
  rewrite bind_scope, !bind_when_with_ctrl.
  rewrite bind_scope, !bind_when_with_ctrl.
  rewrite bind_scope, !bind_when_with_ctrl.
  rewrite bind_scope. cbn [scope with_controller ctrl].
  set (c' := normalized (scope w) (ctrl w)).
  match goal with
  | |- when _ _ (with_controller ?c _) = _ => replace c with c'
  end.
  - unfold when. cbn zeta. destruct (truthy (s_name (scope w))) eqn:E.
    + rewrite fetchData_spec. cbn [scope with_controller]. rewrite E.
      reflexivity.
    + reflexivity.
  - subst c'. unfold Report.normalized, stored. destruct (ctrl w).
    destruct (truthy (s_startTime (scope w))),
             (is_null (s_startTime (scope w))),
             (truthy (s_duration (scope w))),
             (is_null (s_duration (scope w))),
             (truthy (s_clientLabel (scope w))),
             (is_null (s_clientLabel (scope w))); reflexivity.
Qed.

Lemma onParamsChange_ok w : fst (onParamsChange_ w) = Ok tt.
Proof.
  rewrite onParamsChange_spec. cbn zeta.
  destruct (truthy (s_name (scope w))); reflexivity.
Qed.

Lemma ctrl_onParamsChange w :
  ctrl (snd (onParamsChange_ w)) =
  if truthy (s_name (scope w))
  then set_state "LOADING" (normalized (scope w) (ctrl w))
  else normalized (scope w) (ctrl w).
Proof.
  rewrite onParamsChange_spec. cbn zeta.
  destruct (truthy (s_name (scope w))); reflexivity.
Qed.

Lemma startTime_onParamsChange w :
  startTime (ctrl (snd (onParamsChange_ w))) =
  stored (startTime (ctrl w)) (s_startTime (scope w))
    (JNum (DEFAULT_START_TIME moment_now)).
Proof.
  rewrite ctrl_onParamsChange.
  destruct (truthy (s_name (scope w))); reflexivity.
Qed.

Lemma duration_onParamsChange w :
  duration (ctrl (snd (onParamsChange_ w))) =
  stored (duration (ctrl w)) (s_duration (scope w)) (JNum DEFAULT_DURATION).
Proof.
  rewrite ctrl_onParamsChange.
  destruct (truthy (s_name (scope w))); reflexivity.
Qed.

Lemma clientLabel_onParamsChange w :
  clientLabel (ctrl (snd (onParamsChange_ w))) =
  stored (clientLabel (ctrl w)) (s_clientLabel (scope w))
    (JStr DEFAULT_CLIENT_LABEL).
Proof.
  rewrite ctrl_onParamsChange.
  destruct (truthy (s_name (scope w))); reflexivity.
Qed.

Lemma stored_null old dflt : stored old JNull dflt = dflt.
Proof. reflexivity. Qed.

Lemma stored_falsy old v dflt :
  truthy v = false -> is_null v = false -> stored old v dflt = old.
Proof. unfold stored. intros -> ->. reflexivity. Qed.

Lemma stored_truthy old v dflt : truthy v = true -> stored old v dflt = v.
Proof.
  intros H. unfold stored. rewrite H.
  destruct v; simpl in *; try discriminate; reflexivity.
Qed.

(** C3: after the parameter-change handler ran with a bound parameter that
    is null, the controller stores that parameter's default: for the start
    time the clock reading [moment_now] minus 30 days, in microseconds (the
    backend's unit); for the duration 2592000 seconds; for the client label
    the empty string. *)
Theorem null_restores_default w :
  (s_startTime (scope w) = JNull ->
   startTime (ctrl (snd (onParamsChange_ w))) =
   JNum (DEFAULT_START_TIME moment_now)) /\
  (s_duration (scope w) = JNull ->
   duration (ctrl (snd (onParamsChange_ w))) = JNum 2592000) /\
  (s_clientLabel (scope w) = JNull ->
   clientLabel (ctrl (snd (onParamsChange_ w))) = JStr "") /\
  DEFAULT_START_TIME moment_now =
  (moment_now - 30 * 24 * 60 * 60 * 1000) * 1000 /\
  DEFAULT_DURATION = 30 * (24 * 60 * 60).
Proof.
  split; [|split; [|split; [|split]]].
  - intros H. rewrite startTime_onParamsChange, H. reflexivity.
  - intros H. rewrite duration_onParamsChange, H. reflexivity.
  - intros H. rewrite clientLabel_onParamsChange, H. reflexivity.
  - unfold DEFAULT_START_TIME, MONTH_SECONDS. lia.
  - reflexivity.
Qed.

(** C4 (amended): the handler never throws; a bound parameter that is
    undefined, or falsy in another way and not null, leaves the stored value
    as it is, which is the default in a newly constructed controller; a
    truthy value is stored as it is. *)
Theorem missing_param_keeps_stored_value w :
  fst (onParamsChange_ w) = Ok tt /\
  (truthy (s_startTime (scope w)) = false ->
   is_null (s_startTime (scope w)) = false ->
   startTime (ctrl (snd (onParamsChange_ w))) = startTime (ctrl w)) /\
  (truthy (s_duration (scope w)) = false ->
   is_null (s_duration (scope w)) = false ->
   duration (ctrl (snd (onParamsChange_ w))) = duration (ctrl w)) /\
  (truthy (s_clientLabel (scope w)) = false ->
   is_null (s_clientLabel (scope w)) = false ->
   clientLabel (ctrl (snd (onParamsChange_ w))) = clientLabel (ctrl w)) /\
  (truthy (s_startTime (scope w)) = true ->
   startTime (ctrl (snd (onParamsChange_ w))) = s_startTime (scope w)) /\
  (truthy (s_duration (scope w)) = true ->
   duration (ctrl (snd (onParamsChange_ w))) = s_duration (scope w)) /\
  (truthy (s_clientLabel (scope w)) = true ->
   clientLabel (ctrl (snd (onParamsChange_ w))) = s_clientLabel (scope w)) /\
  (forall sc,
     startTime (ctrl (ReportController sc)) =
     JNum (DEFAULT_START_TIME moment_now) /\
     duration (ctrl (ReportController sc)) = JNum DEFAULT_DURATION /\
     clientLabel (ctrl (ReportController sc)) = JStr DEFAULT_CLIENT_LABEL).
Proof.
  split; [apply onParamsChange_ok|].
  rewrite startTime_onParamsChange, duration_onParamsChange,
    clientLabel_onParamsChange.
  repeat split; auto using stored_falsy, stored_truthy.
Qed.

Lemma onReportResponse_spec response d data desc sdata sdesc ty t w :
  prop_get response "data" = Some d ->
  prop_get d "data" = Some data ->
  prop_get d "desc" = Some desc ->
  stripTypeInfo data = Some sdata ->
  stripTypeInfo desc = Some sdesc ->
  prop_get sdesc "type" = Some ty ->
  upperCaseToTitleCase ty = Some t ->
  onReportResponse response w =
  (Ok tt,
   {| ctrl := set_state "LOADED"
                (set_titleCasedType (JStr t)
                   (set_reportDesc sdesc (set_reportData sdata (ctrl w))));
      scope := scope w; trace := trace w ++ [StateWrite "LOADED"];
      pending := pending w; watches := watches w |}).
Proof.
  intros Hd Hdata Hdesc Hsdata Hsdesc Hty Ht.
  unfold Report.onReportResponse.
  rewrite (bind_lift_Some _ _ _ _ _ Hd).
  rewrite (bind_lift_Some _ _ _ _ _ Hdata).
  rewrite (bind_lift_Some _ _ _ _ _ Hsdata).
  rewrite bind_with_ctrl.
  rewrite (bind_lift_Some _ _ _ _ _ Hd).
  rewrite (bind_lift_Some _ _ _ _ _ Hdesc).
  rewrite (bind_lift_Some _ _ _ _ _ Hsdesc).
  rewrite bind_with_ctrl, bind_this.
  cbn [ctrl with_controller set_reportDesc reportDesc].
  rewrite (bind_lift_Some _ _ _ _ _ Hty).
  rewrite (bind_lift_Some _ _ _ _ _ Ht).
  rewrite bind_with_ctrl.
  destruct w as [c sc tr pe ws]. reflexivity.
Qed.

Lemma settle_fetching w :
  settle (length (pending w)) (fetching w) =
  {| ctrl := set_state "LOADING" (ctrl w); scope := scope w;
     trace := trace w ++ [StateWrite "LOADING"; report_request w];
     pending := pending w; watches := watches w |}.
Proof.
  unfold settle, Report.fetching. cbn [ctrl scope trace pending watches].
  f_equal. induction (pending w) as [|cb l IH]; simpl; [reflexivity|].
  f_equal. exact IH.
Qed.

Lemma pending_fetching w :
  pending (fetching w) !! length (pending w) = Some OnReport.
Proof.
  unfold Report.fetching. cbn [pending].
  rewrite lookup_app_r by lia. rewrite Nat.sub_diag. reflexivity.
Qed.

(** C5: with the name bound to a non-empty string X, the fetch writes
    LOADING to the state and then sends GET stats/reports/X with the
    controller's start time, duration and client label; when the response
    of that request arrives, with data and desc that strip and a type tag
    that title-cases, the callback stores the stripped values and the title
    and then writes LOADED; with a falsy name neither the fetch nor the
    handler sends a request or writes the state. *)
Theorem fetch_requests_report w (X : string) :
  (s_name (scope w) = JStr X -> X <> ""%string ->
   fetchData_ w = (Ok tt, fetching w) /\
   trace (fetching w) =
   trace w ++
     [StateWrite "LOADING";
      ApiGet ("stats/reports/" +:+ X)%string
        (Some {| start_time := startTime (ctrl w);
                 duration_param := duration (ctrl w);
                 client_label := clientLabel (ctrl w) |})] /\
   state (ctrl (fetching w)) = "LOADING"%string /\
   pending (fetching w) = pending w ++ [OnReport] /\
   forall response d data desc sdata sdesc ty t,
     prop_get response "data" = Some d ->
     prop_get d "data" = Some data ->
     prop_get d "desc" = Some desc ->
     stripTypeInfo data = Some sdata ->
     stripTypeInfo desc = Some sdesc ->
     prop_get sdesc "type" = Some ty ->
     upperCaseToTitleCase ty = Some t ->
     exists w',
       step (Resolve (length (pending w)) response) (fetching w) = Some w' /\
       state (ctrl w') = "LOADED"%string /\
       reportData (ctrl w') = sdata /\
       reportDesc (ctrl w') = sdesc /\
       titleCasedType (ctrl w') = JStr t /\
       trace w' = trace (fetching w) ++ [StateWrite "LOADED"]) /\
  (truthy (s_name (scope w)) = false ->
   fetchData_ w = (Ok tt, w) /\
   trace (snd (onParamsChange_ w)) = trace w /\
   pending (snd (onParamsChange_ w)) = pending w /\
   state (ctrl (snd (onParamsChange_ w))) = state (ctrl w)) /\
  (truthy (s_name (scope w)) = true ->
   snd (onParamsChange_ w) =
   fetching (with_controller (normalized (scope w) (ctrl w)) w)).
Proof.
  split; [|split].
  - intros Hname HX.
    assert (Ht : truthy (s_name (scope w)) = true).
    { rewrite Hname. simpl. destruct X; [congruence|reflexivity]. }
    split; [rewrite fetchData_spec, Ht; reflexivity|].
    split.
    { unfold Report.fetching, Report.report_request. cbn [trace].
      rewrite Hname. reflexivity. }
    split; [reflexivity|]. split; [reflexivity|].
    intros response d data desc sdata sdesc ty t Hd Hdata Hdesc Hs1 Hs2 Hty Hti.
    unfold Report.step. rewrite pending_fetching. cbn [callback].
    rewrite settle_fetching.
    erewrite onReportResponse_spec by eassumption.
    eexists. split; [reflexivity|]. cbn [snd ctrl trace].
    repeat split.
  - intros Hf. rewrite fetchData_spec, onParamsChange_spec, Hf. cbn zeta.
    repeat split.
  - intros Ht. rewrite onParamsChange_spec, Ht. reflexivity.
Qed.

(** *** The state stays among its three values *)

Lemma preserves_ret {A} P (a : A) : preserves P (ret a).
Proof. intros w Hw. exact Hw. Qed.

Lemma preserves_throw {A} P e : preserves P (@throw A e).
Proof. intros w Hw. exact Hw. Qed.

Lemma preserves_lift {A} P e (o : option A) : preserves P (lift e o).
Proof. destruct o; [apply preserves_ret|apply preserves_throw]. Qed.

Lemma preserves_bind {A B} P (m : M A) (k : A -> M B) :
  preserves P m -> (forall a, preserves P (k a)) -> preserves P (bind m k).
Proof.
  intros Hm Hk w Hw. unfold bind. specialize (Hm w Hw).
  destruct (m w) as [[a|e] w1]; simpl in *; [apply Hk|]; assumption.
Qed.

Lemma preserves_when P b m : preserves P m -> preserves P (when b m).
Proof. destruct b; [auto|intros _; apply preserves_ret]. Qed.

Lemma preserves_this P : preserves P this.
Proof. intros w Hw. exact Hw. Qed.

Lemma preserves_scope_ P : preserves P scope_.
Proof. intros w Hw. exact Hw. Qed.

Lemma Inv_with_ctrl f :
  (forall c, state (f c) = state c) -> preserves Inv (with_ctrl f).
Proof. intros Hf w Hw. unfold Inv in *. simpl. rewrite Hf. exact Hw. Qed.

Lemma Inv_with_scope f : preserves Inv (with_scope f).
Proof. intros w Hw. exact Hw. Qed.

Lemma Inv_with_watches f : preserves Inv (with_watches f).
Proof. intros w Hw. exact Hw. Qed.

Lemma Inv_emit e : preserves Inv (emit e).
Proof. intros w Hw. exact Hw. Qed.

Lemma Inv_await cb : preserves Inv (await cb).
Proof. intros w Hw. exact Hw. Qed.

Lemma Inv_write_state s : valid_state s -> preserves Inv (write_state s).
Proof. intros Hs w Hw. exact Hs. Qed.

Lemma valid_LOADING : valid_state "LOADING".
Proof. right; left; reflexivity. Qed.

Lemma valid_LOADED : valid_state "LOADED".
Proof. right; right; reflexivity. Qed.

Ltac preserves_Inv :=
  repeat first
    [ apply preserves_bind; [|intros ?]
    | apply preserves_when
    | apply preserves_lift
    | apply preserves_ret
    | apply preserves_this
    | apply preserves_scope_
    | apply Inv_with_scope
    | apply Inv_with_watches
    | apply Inv_emit
    | apply Inv_await
    | apply Inv_write_state; [apply valid_LOADING || apply valid_LOADED]
    | apply Inv_with_ctrl; intros []; reflexivity ].

Lemma Inv_fetchData_ : preserves Inv fetchData_.
Proof.
  unfold Report.fetchData_. apply preserves_bind; [apply preserves_scope_|].
  intros sc. destruct (truthy (s_name sc)); [|apply preserves_ret].
  unfold grrApiService_get. preserves_Inv.
Qed.

Lemma Inv_onParamsChange_ : preserves Inv onParamsChange_.
Proof.
  unfold Report.onParamsChange_. preserves_Inv; apply Inv_fetchData_.
Qed.

Lemma Inv_refreshReport : preserves Inv refreshReport.
Proof. unfold refreshReport. preserves_Inv. Qed.

Lemma Inv_callback cb response :
  preserves Inv
    (callback stripTypeInfo upperCaseToTitleCase cb response).
Proof.
  destruct cb; cbn [callback];
    unfold Report.onReportResponse, Report.onLabels, onRDFDatetime,
      onDuration, getRDFValueDescriptor;
    preserves_Inv.
Qed.

Lemma Inv_step e w w' : Inv w -> step e w = Some w' -> Inv w'.
Proof.
  intros Hw. destruct e; cbn [Report.step].
  - intros [= <-]. exact Hw.
  - intros [= <-]. apply Inv_onParamsChange_, Hw.
  - intros [= <-]. apply Inv_refreshReport, Hw.
  - intros [= <-]. exact Hw.
  - destruct (pending w !! i); [|discriminate].
    intros [= <-]. apply Inv_callback. exact Hw.
  - destruct (pending w !! i); [|discriminate].
    intros [= <-]. exact Hw.
  - destruct (watch_startTime (watches w)); [|discriminate].
    intros [= <-]. revert w Hw. unfold onStartTimeWatch.
    change (preserves Inv
      (let* c := this in
       let* t := lift "TypeError"
                   (prop_set (typedStartTime c) "value" (startTime c)) in
       with_ctrl (set_typedStartTime t))).
    preserves_Inv.
  - destruct (watch_duration (watches w)); [|discriminate].
    intros [= <-]. revert w Hw. unfold onDurationWatch.
    change (preserves Inv
      (let* c := this in
       let* t := lift "TypeError"
                   (prop_set (typedDuration c) "value" (duration c)) in
       with_ctrl (set_typedDuration t))).
    preserves_Inv.
  - intros [= <-]. exact Hw.
Qed.

Lemma Inv_run es : forall w w', Inv w -> run es w = Some w' -> Inv w'.
Proof.
  induction es as [|e es IH]; intros w w' Hw; cbn [Report.run].
  - intros [= <-]. exact Hw.
  - destruct (step e w) as [w1|] eqn:E; [|discriminate].
    apply IH. eapply Inv_step; eassumption.
Qed.

Lemma Inv_reachable w : reachable w -> Inv w.
Proof.
  intros (sc & es & Hrun). eapply Inv_run; [|exact Hrun].
  left. reflexivity.
Qed.

(** C6: in every world the controller can reach, the state is INITIAL,
    LOADING or LOADED; the rejection of a pending request changes nothing
    of the controller, its scope or its trace; and when the request that a
    fetch has just sent is rejected, the state is LOADING afterwards. *)
Theorem failed_fetch_stays_loading w :
  reachable w ->
  valid_state (state (ctrl w)) /\
  (forall i w',
     step (Reject i) w = Some w' ->
     ctrl w' = ctrl w /\ scope w' = scope w /\ trace w' = trace w /\
     watches w' = watches w /\ pending w' = delete i (pending w)) /\
  (truthy (s_name (scope w)) = true ->
   exists w',
     step (Reject (length (pending w))) (snd (fetchData_ w)) = Some w' /\
     state (ctrl w') = "LOADING"%string /\
     pending w' = pending w /\
     trace w' = trace (snd (fetchData_ w))).
Proof.
  intros Hreach. split; [apply Inv_reachable, Hreach|]. split.
  - intros i w'. cbn [Report.step].
    destruct (pending w !! i); [|discriminate].
    intros [= <-]. repeat split.
  - intros Ht. rewrite fetchData_spec, Ht. cbn [snd Report.step].
    rewrite pending_fetching, settle_fetching.
    eexists. split; [reflexivity|]. repeat split.
Qed.

(** Before the ['RDFDatetime'] descriptor arrived the typed start time is
    undefined, and the refresh throws at its first statement. *)
Lemma refresh_before_descriptor w :
  typedStartTime (ctrl w) = JUndefined ->
  refreshReport w = (Throw "TypeError", w).
Proof.
  intros H. unfold refreshReport. rewrite bind_this, H. reflexivity.
Qed.

(** C7 (amended): the refresh never changes the controller, the trace of
    requests, the pending callbacks, the watches or the bound name; when
    the typed start time and the typed duration are set (neither undefined
    nor null) it writes their values and the edited client label to the
    three bound attributes; a re-fetch happens only in the handler that the
    changed attributes trigger, which then fetches with the copied
    values. *)
Theorem refresh_copies_edits w :
  (ctrl (snd (refreshReport w)) = ctrl w /\
   trace (snd (refreshReport w)) = trace w /\
   pending (snd (refreshReport w)) = pending w /\
   watches (snd (refreshReport w)) = watches w /\
   s_name (scope (snd (refreshReport w))) = s_name (scope w)) /\
  (forall v1 v2,
     prop_get (typedStartTime (ctrl w)) "value" = Some v1 ->
     prop_get (typedDuration (ctrl w)) "value" = Some v2 ->
     refreshReport w =
     (Ok tt,
      {| ctrl := ctrl w;
         scope := {| s_name := s_name (scope w); s_startTime := v1;
                     s_duration := v2;
                     s_clientLabel := modelClientLabel (ctrl w) |};
         trace := trace w; pending := pending w; watches := watches w |}) /\
     (truthy (s_name (scope w)) = true ->
      truthy v1 = true -> truthy v2 = true ->
      truthy (modelClientLabel (ctrl w)) = true ->
      trace (snd (onParamsChange_ (snd (refreshReport w)))) =
      trace w ++
        [StateWrite "LOADING";
         ApiGet ("stats/reports/" +:+
                 to_string number_to_string object_to_string
                   (s_name (scope w)))%string
           (Some {| start_time := v1; duration_param := v2;
                    client_label := modelClientLabel (ctrl w) |})])).
Proof.
  split.
  - destruct w as [c sc tr pe ws].
    unfold refreshReport, bind, this, lift, with_scope, ret, throw.
    cbn [ctrl scope trace pending watches].
    destruct (prop_get (typedStartTime c) "value"); cbn; [|repeat split].
    destruct (prop_get (typedDuration c) "value"); cbn; repeat split.
  - intros v1 v2 H1 H2.
    assert (Hr : refreshReport w =
      (Ok tt,
       {| ctrl := ctrl w;
          scope := {| s_name := s_name (scope w); s_startTime := v1;
                      s_duration := v2;
                      s_clientLabel := modelClientLabel (ctrl w) |};
          trace := trace w; pending := pending w; watches := watches w |})).
    { unfold refreshReport.
      rewrite bind_this, (bind_lift_Some _ _ _ _ _ H1).
      destruct w as [c sc tr pe ws]. cbn in H2 |- *.
      unfold bind, with_scope, this, lift. cbn. rewrite H2. reflexivity. }
    split; [exact Hr|].
    intros Hn Hv1 Hv2 Hl. rewrite Hr. cbn [snd].
    rewrite onParamsChange_spec. cbn [scope s_name]. rewrite Hn. cbn zeta.
    unfold Report.fetching, Report.report_request, with_controller,
      Report.normalized.
    cbn [snd trace scope ctrl s_name s_startTime s_duration s_clientLabel].
    rewrite !stored_truthy by assumption. destruct (ctrl w). reflexivity.
Qed.

End ReportProperties.

(** ** Instances *)

Section ReportInstances.
Import Report Samples.

Abbreviation run0 := (Report.run load_time strip title decimal object_string).
Abbreviation onParamsChange0 :=
  (Report.onParamsChange_ load_time decimal object_string).

Lemma null_restores_default_witness :
  startTime (ctrl (snd (onParamsChange0
    (ReportController load_time (bindings (JStr "X") JNull JNull JNull))))) =
  JNum 1597408000000000.
Proof.
  apply (null_restores_default load_time decimal object_string
           (ReportController load_time (bindings (JStr "X") JNull JNull JNull))).
  reflexivity.
Defined.

(** C4, as stated, fails: once a start time was stored, a handler run with
    the bound start time undefined keeps it instead of the default; and a
    bound start time that is a string is stored as the start time. *)
Lemma missing_param_falls_back_counterexample :
  exists w w',
    run0 [ParamsChange; Bind no_bindings]
      (ReportController load_time (bindings JUndefined (JNum 5) JUndefined JUndefined))
    = Some w /\
    s_startTime (scope w) = JUndefined /\
    Report.step load_time strip title decimal object_string ParamsChange w
    = Some w' /\
    startTime (ctrl w') = JNum 5 /\
    startTime (ctrl w') <> JNum (DEFAULT_START_TIME load_time) /\
    startTime (ctrl (snd (onParamsChange0
      (ReportController load_time
         (bindings JUndefined (JStr "yesterday") JUndefined JUndefined))))) =
    JStr "yesterday".
Proof.
  eexists _, _. split; [reflexivity|]. split; [reflexivity|].
  split; [reflexivity|]. split; [reflexivity|].
  split; [discriminate|reflexivity].
Qed.

Lemma missing_param_keeps_stored_value_witness :
  startTime (ctrl (snd (onParamsChange0
    (ReportController load_time (bindings (JStr "X") (JNum 0) JNull JNull))))) =
  JNum (DEFAULT_START_TIME load_time).
Proof.
  pose proof (missing_param_keeps_stored_value load_time decimal object_string
    (ReportController load_time (bindings (JStr "X") (JNum 0) JNull JNull)))
    as (_ & H & _).
  rewrite H; reflexivity.
Defined.

Lemma fetch_requests_report_witness :
  exists w',
    Report.step load_time strip title decimal object_string
      (Resolve 2 report_response)
      (Report.fetching decimal object_string
         (ReportController load_time scope_X)) = Some w' /\
    state (ctrl w') = "LOADED"%string /\
    trace w' =
    [StateWrite "INITIAL"; GetRDFValueDescriptor "RDFDatetime";
     ApiGet "/clients/labels" None; StateWrite "LOADING";
     ApiGet "stats/reports/X"
       (Some {| start_time := JNum 1597408000000000;
                duration_param := JNum 2592000;
                client_label := JStr "" |});
     StateWrite "LOADED"].
Proof.
  destruct (fetch_requests_report load_time strip title decimal object_string
              (ReportController load_time scope_X) "X")
    as [H _].
  destruct H as (_ & _ & _ & _ & H); [reflexivity|discriminate|].
  destruct (H report_response
              (JObj [("data", JObj [("points", JNum 3)]);
                     ("desc", JObj [("type", JStr "Line Chart")])])
              (JObj [("points", JNum 3)])
              (JObj [("type", JStr "Line Chart")])
              (JObj [("points", JNum 3)])
              (JObj [("type", JStr "Line Chart")])
              (JStr "Line Chart") "Line Chart"%string)
    as (w' & Hstep & Hstate & _ & _ & _ & Htrace); try reflexivity.
  exists w'. split; [exact Hstep|]. split; [exact Hstate|exact Htrace].
Defined.

Lemma failed_fetch_stays_loading_witness :
  valid_state (state (ctrl (world_after [ParamsChange] scope_X))) /\
  exists w',
    Report.step load_time strip title decimal object_string (Reject 3)
      (snd (Report.fetchData_ decimal object_string
              (world_after [ParamsChange] scope_X))) = Some w' /\
    state (ctrl w') = "LOADING"%string.
Proof.
  destruct (failed_fetch_stays_loading load_time strip title decimal
              object_string (world_after [ParamsChange] scope_X))
    as (Hvalid & _ & Hreject).
  - exists scope_X, [ParamsChange]. vm_compute. reflexivity.
  - split; [exact Hvalid|].
    destruct Hreject as (w' & Hstep & Hstate & _); [vm_compute; reflexivity|].
    exists w'. split; [exact Hstep|exact Hstate].
Defined.

Lemma refresh_copies_edits_witness :
  scope (snd (refreshReport world_edited)) =
  bindings (JStr "X") (JNum 77) (JNum 3600) (JStr "servers") /\
  trace (snd (refreshReport world_edited)) = trace world_edited.
Proof.
  destruct (proj2 (refresh_copies_edits load_time decimal object_string
                     world_edited) (JNum 77) (JNum 3600)) as [H _];
    [vm_compute; reflexivity|vm_compute; reflexivity|].
  rewrite H. split; vm_compute; reflexivity.
Defined.

(** C7, as stated, fails: in a world the controller reaches when the
    RDFDatetime descriptor has arrived, the Duration descriptor has not, and
    the user edited the start time and the label, the refresh binds the
    edited start time, then throws on the undefined typed duration, and the
    edited label is never bound. *)
Lemma refresh_copies_edits_counterexample :
  Report.reachable load_time strip title decimal object_string
    world_half_described /\
  modelClientLabel (ctrl world_half_described) = JStr "servers" /\
  fst (refreshReport world_half_described) = Throw "TypeError" /\
  s_startTime (scope (snd (refreshReport world_half_described))) = JNum 77 /\
  s_clientLabel (scope (snd (refreshReport world_half_described))) =
  JUndefined /\
  s_clientLabel (scope (snd (refreshReport world_half_described))) <>
  modelClientLabel (ctrl world_half_described).
Proof.
  split.
  - exists scope_X,
      [Resolve 0 (descriptor (JNum 0));
       Edit (JObj [("value", JNum 77)]) JUndefined (JStr "servers")].
    vm_compute. reflexivity.
  - repeat split; try (vm_compute; reflexivity).
    vm_compute. discriminate.
Qed.

End ReportInstances.

(** * How the flow utilities compose *)

Section FlowComposition.
Import Flow Samples FlowBuild.

Lemma entry_eq (a b : FlowListEntry) :
  flow a = flow b -> resultSets a = resultSets b -> a = b.
Proof. destruct a, b. simpl. congruence. Qed.

Lemma same_filter_key_eq a b x :
  filter_key a = filter_key b -> same_filter x a = same_filter x b.
Proof.
  intros Hk. destruct (same_filter x b) eqn:E.
  - apply same_filter_true. rewrite Hk. apply same_filter_true, E.
  - apply same_filter_false. rewrite Hk. apply same_filter_false, E.
Qed.

Lemma matches_key_eq a b l :
  filter_key a = filter_key b -> matches a l = matches b l.
Proof.
  intros Hk. unfold matches. induction l as [|x l IH]; simpl; [reflexivity|].
  rewrite IH, (same_filter_key_eq a b x Hk). reflexivity.
Qed.

Lemma matches_map_replaced_any a b l :
  matches b (map (replaced a) l) = matches b l.
Proof.
  unfold matches. induction l as [|x l IH]; simpl; [reflexivity|].
  rewrite IH. f_equal.
  destruct (same_filter x b) eqn:E.
  - apply same_filter_true. rewrite filter_key_replaced.
    apply same_filter_true, E.
  - apply same_filter_false. rewrite filter_key_replaced.
    apply same_filter_false, E.
Qed.

Lemma find_pred_key ty tg rs :
  find_pred ty tg rs = true <-> filter_key rs = (ty, tg).
Proof.
  unfold find_pred, filter_key. rewrite andb_true_iff, !strict_eq_true.
  split; [intros [-> ->]; reflexivity | intros [= -> ->]; auto].
Qed.

Lemma find_pred_not_key ty tg rs :
  find_pred ty tg rs = false <-> filter_key rs <> (ty, tg).
Proof.
  rewrite <- find_pred_key. destruct (find_pred ty tg rs); split; congruence.
Qed.

(** X1: a result set merged after another with the same (withType, withTag)
    pair supersedes it: the entry is the one that merging only the later
    set gives. *)
Theorem update_overwrites_same_key fle a b :
  filter_key a = filter_key b ->
  updateFlowListEntryResultSet (updateFlowListEntryResultSet fle a) b =
  updateFlowListEntryResultSet fle b.
Proof.
  intros Hk. apply entry_eq; [rewrite !flow_update; reflexivity|].
  rewrite resultSets_update, (resultSets_update fle a),
    (resultSets_update fle b), (matches_key_eq a b _ Hk).
  assert (Hab : same_filter a b = true) by (apply same_filter_true, Hk).
  destruct (matches b (resultSets fle)) eqn:E.
  - rewrite matches_map_replaced_any, E, map_map.
    apply map_ext. intros x. unfold replaced.
    rewrite (same_filter_key_eq a b x Hk).
    destruct (same_filter x b) eqn:Ex; [rewrite Hab|rewrite Ex]; reflexivity.
  - rewrite matches_app, E. simpl. rewrite Hab. simpl.
    rewrite map_app, map_replaced_no_match by assumption. simpl.
    unfold replaced. rewrite Hab. reflexivity.
Qed.

Lemma update_overwrites_same_key_witness :
  updateFlowListEntryResultSet (updateFlowListEntryResultSet entry_ab rs_b) rs_c
  = updateFlowListEntryResultSet entry_ab rs_c.
Proof. apply update_overwrites_same_key. reflexivity. Defined.

Lemma find_map_replaced_other ty tg rs l :
  filter_key rs <> (ty, tg) ->
  List.find (find_pred ty tg) (map (replaced rs) l) =
  List.find (find_pred ty tg) l.
Proof.
  intros Hk. induction l as [|x l IH]; simpl; [reflexivity|].
  rewrite IH. unfold replaced. destruct (same_filter x rs) eqn:E;
    [|reflexivity].
  apply same_filter_true in E.
  rewrite (proj2 (find_pred_not_key ty tg rs) Hk).
  rewrite (proj2 (find_pred_not_key ty tg x)) by congruence. reflexivity.
Qed.

Lemma find_app_other ty tg rs l :
  filter_key rs <> (ty, tg) ->
  List.find (find_pred ty tg) (l ++ [rs]) = List.find (find_pred ty tg) l.
Proof.
  intros Hk. induction l as [|x l IH]; simpl.
  - rewrite (proj2 (find_pred_not_key ty tg rs) Hk). reflexivity.
  - rewrite IH. reflexivity.
Qed.

(** X2: merging a result set does not change what the lookup of any other
    (withType, withTag) pair returns. *)
Theorem find_update_other_key fle rs ty tg :
  filter_key rs <> (ty, tg) ->
  findFlowListEntryResultSet (updateFlowListEntryResultSet fle rs) ty tg =
  findFlowListEntryResultSet fle ty tg.
Proof.
  intros Hk. unfold findFlowListEntryResultSet. rewrite resultSets_update.
  destruct (matches rs (resultSets fle)).
  - apply find_map_replaced_other, Hk.
  - apply find_app_other, Hk.
Qed.

Lemma find_update_other_key_witness :
  findFlowListEntryResultSet (updateFlowListEntryResultSet entry_ab rs_b)
    None (Some "someTag") =
  findFlowListEntryResultSet entry_ab None (Some "someTag").
Proof. apply find_update_other_key. discriminate. Defined.

(** What a lookup returns after an update, for any key. *)
Lemma find_update fle rs ty tg :
  findFlowListEntryResultSet (updateFlowListEntryResultSet fle rs) ty tg =
  if decide (filter_key rs = (ty, tg)) then Some rs
  else findFlowListEntryResultSet fle ty tg.
Proof.
  destruct (decide (filter_key rs = (ty, tg))) as [Hk|Hk].
  - unfold findFlowListEntryResultSet. rewrite resultSets_update.
    injection Hk as <- <-.
    rewrite (find_pointwise _ (fun x => same_filter x rs))
      by (intros x; apply find_pred_same_filter).
    destruct (matches rs (resultSets fle)) eqn:E.
    + apply find_map_replaced, E.
    + apply find_app_no_match, E.
  - unfold findFlowListEntryResultSet. rewrite resultSets_update.
    destruct (matches rs (resultSets fle)).
    + apply find_map_replaced_other, Hk.
    + apply find_app_other, Hk.
Qed.

Lemma find_first ty tg (l : list FlowResultSet) rs :
  List.find (find_pred ty tg) l = Some rs <->
  exists l1 l2,
    l = l1 ++ rs :: l2 /\ filter_key rs = (ty, tg) /\
    forall x, In x l1 -> filter_key x <> (ty, tg).
Proof.
  induction l as [|y l IH]; simpl.
  - split; [discriminate|]. intros (l1 & l2 & H & _). destruct l1; discriminate.
  - destruct (find_pred ty tg y) eqn:E.
    + split.
      * intros [= <-]. exists [], l. repeat split; [|intros x []].
        apply find_pred_key, E.
      * intros (l1 & l2 & Hl & Hk & Hno). destruct l1 as [|z l1].
        -- injection Hl as -> _. reflexivity.
        -- injection Hl as -> _. apply find_pred_key in E.
           destruct (Hno z (or_introl eq_refl) E).
    + rewrite IH. split.
      * intros (l1 & l2 & -> & Hk & Hno). exists (y :: l1), l2.
        repeat split; auto. intros x [<-|Hx]; [|auto].
        apply find_pred_not_key, E.
      * intros (l1 & l2 & Hl & Hk & Hno). destruct l1 as [|z l1].
        -- injection Hl as -> _. apply find_pred_key in Hk. congruence.
        -- injection Hl as -> ->. exists l1, l2. repeat split; auto.
           intros x Hx. apply Hno. right. exact Hx.
Qed.

Lemma find_absent ty tg (l : list FlowResultSet) :
  List.find (find_pred ty tg) l = None <-> ~ In (ty, tg) (map filter_key l).
Proof.
  induction l as [|y l IH]; simpl; [tauto|].
  destruct (find_pred ty tg y) eqn:E.
  - apply find_pred_key in E. split; [discriminate|]. intros H.
    destruct H. left. exact E.
  - apply find_pred_not_key in E. rewrite IH. tauto.
Qed.

(** X3: the lookup returns the earliest result set of the entry that has
    the requested (withType, withTag) pair, and is undefined exactly when no
    result set of the entry has that pair. *)
Theorem find_returns_first_match fle ty tg :
  (forall rs,
     findFlowListEntryResultSet fle ty tg = Some rs <->
     exists l1 l2,
       resultSets fle = l1 ++ rs :: l2 /\ filter_key rs = (ty, tg) /\
       forall x, In x l1 -> filter_key x <> (ty, tg)) /\
  (findFlowListEntryResultSet fle ty tg = None <-> ~ In (ty, tg) (keys fle)).
Proof.
  split; [intros rs; apply find_first|apply find_absent].
Qed.

Lemma matches_In_keys rs l :
  matches rs l = true <-> In (filter_key rs) (map filter_key l).
Proof.
  rewrite matches_true, in_map_iff.
  split; intros (x & H1 & H2); exists x; auto.
Qed.

Lemma keys_update fle rs :
  keys (updateFlowListEntryResultSet fle rs) =
  if matches rs (resultSets fle) then keys fle
  else keys fle ++ [filter_key rs].
Proof.
  unfold keys. rewrite resultSets_update.
  destruct (matches rs (resultSets fle)).
  - rewrite map_map. apply map_ext. intros x. apply filter_key_replaced.
  - rewrite map_app. reflexivity.
Qed.

(** X4: an update keeps the sequence of filter keys of the entry when the
    key of the new set is among them, and otherwise adds that key at the
    end; no key is ever removed. *)
Theorem update_keeps_or_adds_key fle rs :
  (In (filter_key rs) (keys fle) ->
   keys (updateFlowListEntryResultSet fle rs) = keys fle) /\
  (~ In (filter_key rs) (keys fle) ->
   keys (updateFlowListEntryResultSet fle rs) = keys fle ++ [filter_key rs]) /\
  (forall k, In k (keys fle) ->
             In k (keys (updateFlowListEntryResultSet fle rs))).
Proof.
  rewrite keys_update. unfold keys at 1 3.
  destruct (matches rs (resultSets fle)) eqn:E.
  - apply matches_In_keys in E. repeat split; tauto.
  - assert (~ In (filter_key rs) (map filter_key (resultSets fle)))
      by (rewrite <- matches_In_keys; congruence).
    repeat split; [tauto|]. intros k Hk. apply in_or_app. left. exact Hk.
Qed.

Lemma update_keeps_or_adds_key_witness :
  keys (updateFlowListEntryResultSet entry_ab rs_b) = keys entry_ab /\
  keys (updateFlowListEntryResultSet entry_ab
          (fetched (query (Some "T") None 0 10))) =
  keys entry_ab ++ [(Some "T", None)].
Proof.
  split.
  - apply (proj1 (update_keeps_or_adds_key entry_ab rs_b)).
    right. left. reflexivity.
  - apply (proj1 (proj2 (update_keeps_or_adds_key entry_ab
                           (fetched (query (Some "T") None 0 10))))).
    intros [H|[H|[]]]; discriminate H.
Defined.

Lemma build_snoc f arrivals rs :
  build f (arrivals ++ [rs]) =
  updateFlowListEntryResultSet (build f arrivals) rs.
Proof. unfold build. rewrite fold_left_app. reflexivity. Qed.

(** X5: an entry created from a flow and updated with any sequence of result
    sets keeps that flow, holds pairwise distinct filter keys, holds exactly
    the keys of the sets merged, and the lookup of a key returns the latest
    set merged with that key. *)
Theorem build_invariants f arrivals :
  flow (build f arrivals) = f /\
  NoDup (keys (build f arrivals)) /\
  (forall k, In k (keys (build f arrivals)) <->
             In k (map filter_key arrivals)) /\
  (length (resultSets (build f arrivals)) <= length arrivals)%nat /\
  (forall ty tg,
     findFlowListEntryResultSet (build f arrivals) ty tg =
     List.find (find_pred ty tg) (rev arrivals)).
Proof.
  induction arrivals as [|rs arrivals IH] using rev_ind.
  - split; [reflexivity|]. split; [apply NoDup_nil_2|].
    split; [intros k; reflexivity|]. split; [simpl; lia|reflexivity].
  - destruct IH as (Hflow & Hnd & Hkeys & Hlen & Hfind).
    rewrite build_snoc. split; [rewrite flow_update; exact Hflow|].
    split; [apply update_keeps_keys_distinct, Hnd|].
    split; [|split].
    + intros k. rewrite keys_update, map_app, in_app_iff. simpl.
      destruct (matches rs (resultSets (build f arrivals))) eqn:E.
      * apply matches_In_keys in E. rewrite Hkeys.
        split; [tauto|]. intros [H|[<-|[]]]; [exact H|].
        apply Hkeys, E.
      * rewrite in_app_iff, Hkeys. simpl. tauto.
    + rewrite resultSets_update, length_app. simpl.
      destruct (matches rs (resultSets (build f arrivals)));
        [rewrite length_map|rewrite length_app; simpl]; lia.
    + intros ty tg. rewrite find_update, rev_app_distr. simpl.
      destruct (decide (filter_key rs = (ty, tg))) as [Hk|Hk].
      * rewrite (proj2 (find_pred_key ty tg rs) Hk). reflexivity.
      * rewrite (proj2 (find_pred_not_key ty tg rs) Hk). apply Hfind.
Qed.

(** X6: two result sets with different filter keys can be merged in either
    order: every lookup returns the same, and when both keys are already in
    the entry the two entries are equal. *)
Theorem update_order_irrelevant fle a b :
  filter_key a <> filter_key b ->
  (forall ty tg,
     findFlowListEntryResultSet
       (updateFlowListEntryResultSet (updateFlowListEntryResultSet fle a) b)
       ty tg =
     findFlowListEntryResultSet
       (updateFlowListEntryResultSet (updateFlowListEntryResultSet fle b) a)
       ty tg) /\
  (In (filter_key a) (keys fle) -> In (filter_key b) (keys fle) ->
   updateFlowListEntryResultSet (updateFlowListEntryResultSet fle a) b =
   updateFlowListEntryResultSet (updateFlowListEntryResultSet fle b) a).
Proof.
  intros Hab. split.
  - intros ty tg. rewrite !find_update.
    destruct (decide (filter_key b = (ty, tg))) as [Hb|Hb],
             (decide (filter_key a = (ty, tg))) as [Ha|Ha];
      try reflexivity.
    congruence.
  - intros Ha%matches_In_keys Hb%matches_In_keys.
    apply entry_eq; [rewrite !flow_update; reflexivity|].
    rewrite resultSets_update, (resultSets_update fle a), Ha.
    rewrite (resultSets_update (updateFlowListEntryResultSet fle b)),
      (resultSets_update fle b), Hb.
    rewrite !matches_map_replaced_any, Ha, Hb, !map_map.
    apply map_ext. intros x. unfold replaced.
    assert (Hba : same_filter b a = false)
      by (apply same_filter_false; congruence).
    assert (Hab' : same_filter a b = false)
      by (apply same_filter_false; congruence).
    destruct (same_filter x a) eqn:Ea, (same_filter x b) eqn:Eb;
      rewrite ?Hba, ?Hab', ?Ea, ?Eb, ?same_filter_refl; try reflexivity.
    apply same_filter_true in Ea, Eb. congruence.
Qed.

Lemma update_order_irrelevant_witness :
  updateFlowListEntryResultSet
    (updateFlowListEntryResultSet entry_ab rs_b) rs_tag =
  updateFlowListEntryResultSet
    (updateFlowListEntryResultSet entry_ab rs_tag) rs_b.
Proof.
  apply (proj2 (update_order_irrelevant entry_ab rs_b rs_tag
                  ltac:(discriminate))).
  - right. left. reflexivity.
  - left. reflexivity.
Defined.

(** X7: the entry that the update returns does not share its array with the
    input entry: a later push onto the input's array, as a caller that kept
    the old entry could do, leaves the returned entry as it is. *)
Theorem update_result_not_aliased
    (σ : gmap nat (list FlowResultSet)) ref fle resultSet fuel ref' σ' x σ'' :
  FlowHeap.view σ ref = Some fle ->
  (length (resultSets fle) < fuel)%nat ->
  FlowHeap.updateFlowListEntryResultSet fuel ref resultSet σ = Some (ref', σ') ->
  FlowHeap.push (FlowHeap.r_resultSets ref) x σ' = Some σ'' ->
  FlowHeap.r_resultSets ref' <> FlowHeap.r_resultSets ref /\
  FlowHeap.view σ'' ref' = Some (updateFlowListEntryResultSet fle resultSet) /\
  FlowHeap.view σ'' ref =
  Some {| flow := flow fle; resultSets := resultSets fle ++ [x] |}.
Proof.
  intros Hview Hfuel Hrun Hpush.
  destruct (update_on_store σ ref fle resultSet fuel Hview Hfuel)
    as (r & s & Hrun' & Hview' & Hfresh & Hframe).
  rewrite Hrun in Hrun'. injection Hrun' as <- <-.
  unfold FlowHeap.view in Hview.
  destruct (σ !! FlowHeap.r_resultSets ref) as [items|] eqn:Hsrc;
    [|discriminate].
  injection Hview as <-. cbn [flow resultSets].
  assert (Hne : FlowHeap.r_resultSets ref' <> FlowHeap.r_resultSets ref).
  { intros Heq. rewrite Heq, Hsrc in Hfresh. discriminate Hfresh. }
  split; [exact Hne|].
  unfold FlowHeap.push in Hpush.
  rewrite Hframe, Hsrc in Hpush by (rewrite Hsrc; eauto).
  injection Hpush as <-. unfold FlowHeap.view in *.
  rewrite lookup_insert_ne by auto. split; [exact Hview'|].
  rewrite lookup_insert_eq. reflexivity.
Qed.

Lemma update_result_not_aliased_witness :
  FlowHeap.view (<[0%nat := [rs_tag; rs_a; rs_c]]>
                   (<[1%nat := [rs_tag; rs_b]]> store_ab))
    {| FlowHeap.r_flow := flow0; FlowHeap.r_resultSets := 1%nat |} =
  Some (updateFlowListEntryResultSet entry_ab rs_b).
Proof.
  apply (update_result_not_aliased store_ab ref_ab entry_ab rs_b 3
           {| FlowHeap.r_flow := flow0; FlowHeap.r_resultSets := 1%nat |}
           (<[1%nat := [rs_tag; rs_b]]> store_ab) rs_c).
  - reflexivity.
  - simpl. lia.
  - vm_compute. reflexivity.
  - vm_compute. reflexivity.
Defined.

End FlowComposition.

(** * More on the report controller *)

Section ReportBehaviour.
Import Report Samples ReportFacts.
Local Open Scope report_scope.

Variable moment_now : Z.
Variable stripTypeInfo : Json -> option Json.
Variable upperCaseToTitleCase : Json -> option string.
Variable number_to_string : Z -> string.
Variable object_to_string : list (string * Json) -> string.

Abbreviation fetchData_ := (Report.fetchData_ number_to_string object_to_string).
Abbreviation onParamsChange_ :=
  (Report.onParamsChange_ moment_now number_to_string object_to_string).
Abbreviation onReportResponse :=
  (Report.onReportResponse stripTypeInfo upperCaseToTitleCase).
Abbreviation fetching := (Report.fetching number_to_string object_to_string).
Abbreviation report_request :=
  (Report.report_request number_to_string object_to_string).
Abbreviation normalized := (Report.normalized moment_now).
Abbreviation step :=
  (Report.step moment_now stripTypeInfo upperCaseToTitleCase
     number_to_string object_to_string).
Abbreviation run :=
  (Report.run moment_now stripTypeInfo upperCaseToTitleCase
     number_to_string object_to_string).
Abbreviation reachable :=
  (Report.reachable moment_now stripTypeInfo upperCaseToTitleCase
     number_to_string object_to_string).
Abbreviation ReportController := (Report.ReportController moment_now).

Lemma stored_stored old v dflt :
  stored (stored old v dflt) v dflt = stored old v dflt.
Proof. unfold stored. destruct (is_null v), (truthy v); reflexivity. Qed.

Lemma normalized_idem sc c :
  normalized sc (normalized sc c) = normalized sc c.
Proof.
  destruct c. unfold Report.normalized. simpl.
  unfold set_clientLabel, set_duration, set_startTime. simpl.
  rewrite !stored_stored. reflexivity.
Qed.

Lemma normalized_set_state sc s c :
  normalized sc (set_state s c) = set_state s (normalized sc c).
Proof. destruct c. reflexivity. Qed.

(** X8: running the parameter-change handler again on unchanged bindings
    leaves the controller as the first run left it, but with a truthy name
    it sends the same request a second time: requests are not
    deduplicated. *)
Theorem onParamsChange_again w :
  ctrl (snd (onParamsChange_ (snd (onParamsChange_ w)))) =
  ctrl (snd (onParamsChange_ w)) /\
  scope (snd (onParamsChange_ (snd (onParamsChange_ w)))) = scope w /\
  (truthy (s_name (scope w)) = true ->
   exists request,
     is_report_request request = true /\
     trace (snd (onParamsChange_ w)) =
     trace w ++ [StateWrite "LOADING"; request] /\
     trace (snd (onParamsChange_ (snd (onParamsChange_ w)))) =
     trace w ++ [StateWrite "LOADING"; request; StateWrite "LOADING"; request] /\
     pending (snd (onParamsChange_ (snd (onParamsChange_ w)))) =
     pending w ++ [OnReport; OnReport]).
Proof.
  rewrite !onParamsChange_spec. cbn zeta.
  destruct (truthy (s_name (scope w))) eqn:E; cbn [snd scope fetching
    Report.fetching with_controller ctrl trace pending]; rewrite E;
    cbn [snd scope fetching Report.fetching with_controller ctrl trace
         pending].
  - rewrite normalized_set_state, normalized_idem.
    split; [destruct (normalized (scope w) (ctrl w)); reflexivity|].
    split; [reflexivity|]. intros _.
    eexists. split; [|split; [reflexivity|]].
    + reflexivity.
    + split; [|rewrite <- app_assoc; reflexivity].
      rewrite <- app_assoc. reflexivity.
  - rewrite normalized_idem. split; [reflexivity|]. split; [reflexivity|].
    discriminate.
Qed.

(** X9: the response to any pending report request is applied when it
    arrives, whatever other requests are still pending and whatever
    parameters it was sent with: the stripped data, description and title
    are stored and the state becomes LOADED; the stored parameters, the
    bindings and the other pending callbacks stay as they are. *)
Theorem report_response_applied_on_arrival
    w i response d data desc sdata sdesc ty t :
  pending w !! i = Some OnReport ->
  prop_get response "data" = Some d ->
  prop_get d "data" = Some data ->
  prop_get d "desc" = Some desc ->
  stripTypeInfo data = Some sdata ->
  stripTypeInfo desc = Some sdesc ->
  prop_get sdesc "type" = Some ty ->
  upperCaseToTitleCase ty = Some t ->
  step (Resolve i response) w =
  Some {| ctrl := set_state "LOADED"
                    (set_titleCasedType (JStr t)
                       (set_reportDesc sdesc (set_reportData sdata (ctrl w))));
          scope := scope w;
          trace := trace w ++ [StateWrite "LOADED"];
          pending := delete i (pending w);
          watches := watches w |}.
Proof.
  intros Hi Hd Hdata Hdesc Hs1 Hs2 Hty Ht.
  cbn [Report.step]. rewrite Hi. cbn [callback].
  erewrite onReportResponse_spec by eassumption. reflexivity.
Qed.

Lemma bind_lift_None {A B} e (o : option A) (k : A -> M B) w :
  o = None -> (let* x := lift e o in k x) w = (Throw e, w).
Proof. intros ->. reflexivity. Qed.

(** X10: a report response without a [data] object makes the callback throw
    before it writes anything; one whose description strips to undefined or
    null makes it throw after it has replaced [reportData] and [reportDesc],
    with the state, the title and the trace as they were. *)
Theorem report_response_malformed w response :
  (prop_get response "data" = None ->
   onReportResponse response w = (Throw "TypeError", w)) /\
  (forall d,
     prop_get response "data" = Some d -> prop_get d "data" = None ->
     onReportResponse response w = (Throw "TypeError", w)) /\
  (forall d data desc sdata sdesc,
     prop_get response "data" = Some d ->
     prop_get d "data" = Some data ->
     prop_get d "desc" = Some desc ->
     stripTypeInfo data = Some sdata ->
     stripTypeInfo desc = Some sdesc ->
     prop_get sdesc "type" = None ->
     onReportResponse response w =
     (Throw "TypeError",
      with_controller (set_reportDesc sdesc (set_reportData sdata (ctrl w))) w)
     /\ state (set_reportDesc sdesc (set_reportData sdata (ctrl w))) =
        state (ctrl w)).
Proof.
  split; [|split].
  - intros H. unfold Report.onReportResponse.
    apply bind_lift_None, H.
  - intros d Hd H. unfold Report.onReportResponse.
    rewrite (bind_lift_Some _ _ _ _ _ Hd). apply bind_lift_None, H.
  - intros d data desc sdata sdesc Hd Hdata Hdesc Hs1 Hs2 Hty.
    split; [|reflexivity]. unfold Report.onReportResponse.
    rewrite (bind_lift_Some _ _ _ _ _ Hd).
    rewrite (bind_lift_Some _ _ _ _ _ Hdata).
    rewrite (bind_lift_Some _ _ _ _ _ Hs1).
    rewrite bind_with_ctrl.
    rewrite (bind_lift_Some _ _ _ _ _ Hd).
    rewrite (bind_lift_Some _ _ _ _ _ Hdesc).
    rewrite (bind_lift_Some _ _ _ _ _ Hs2).
    rewrite bind_with_ctrl, bind_this.
    cbn [ctrl with_controller set_reportDesc reportDesc].
    rewrite (bind_lift_None _ _ _ _ Hty).
    destruct w. reflexivity.
Qed.

(** Statements whose primitive steps leave a property of the world
    untouched. *)
Ltac preserves_frame :=
  repeat first
    [ apply preserves_bind; [|intros ?]
    | apply preserves_when
    | apply preserves_lift
    | apply preserves_ret
    | apply preserves_this
    | apply preserves_scope_
    | (intros ? ?; assumption) ].

Lemma scope_fetchData_ w : scope (snd (fetchData_ w)) = scope w.
Proof.
  rewrite fetchData_spec. destruct (truthy (s_name (scope w))); reflexivity.
Qed.

Lemma scope_callback cb response sc :
  preserves (fun w => scope w = sc)
    (callback stripTypeInfo upperCaseToTitleCase cb response).
Proof.
  destruct cb; cbn [callback];
    unfold Report.onReportResponse, Report.onLabels, onRDFDatetime,
      onDuration, getRDFValueDescriptor, write_state;
    preserves_frame.
Qed.

Lemma scope_watch_listeners sc :
  preserves (fun w => scope w = sc) onStartTimeWatch /\
  preserves (fun w => scope w = sc) onDurationWatch.
Proof.
  split; unfold onStartTimeWatch, onDurationWatch; preserves_frame.
Qed.

(** X11: the bound attributes are written by the parent and by the refresh
    only: the parameter-change handler, the fetch, every callback (whether
    it returns or throws), every watch listener and the form widgets leave
    the scope as it is. *)
Theorem scope_written_by_refresh_only e w w' :
  step e w = Some w' ->
  match e with
  | Bind _ | Refresh => True
  | _ => scope w' = scope w
  end.
Proof.
  destruct e; cbn [Report.step]; try exact (fun _ => I).
  - intros [= <-]. rewrite onParamsChange_spec. cbn zeta.
    destruct (truthy (s_name (scope w))); reflexivity.
  - intros [= <-]. reflexivity.
  - destruct (pending w !! i); [|discriminate]. intros [= <-].
    apply (scope_callback c response (scope w) (settle i w)). reflexivity.
  - destruct (pending w !! i); [|discriminate]. intros [= <-]. reflexivity.
  - destruct (watch_startTime (watches w)); [|discriminate]. intros [= <-].
    apply (scope_watch_listeners (scope w)). reflexivity.
  - destruct (watch_duration (watches w)); [|discriminate]. intros [= <-].
    apply (scope_watch_listeners (scope w)). reflexivity.
  - intros [= <-]. reflexivity.
Qed.

(** *** The parameters of a request are never null *)

Abbreviation requests_ok := (ReportFacts.requests_ok moment_now).

Lemma param_ok_stored old v dflt :
  param_ok dflt old -> param_ok dflt (stored old v dflt).
Proof.
  intros Hold. unfold stored. destruct (is_null v); [right; reflexivity|].
  destruct (truthy v) eqn:E; [left; exact E|exact Hold].
Qed.

Lemma fields_ok_normalized sc c :
  fields_ok moment_now c -> fields_ok moment_now (normalized sc c).
Proof.
  intros (H1 & H2 & H3). destruct c. unfold fields_ok, Report.normalized.
  cbn. cbn in H1, H2, H3. auto using param_ok_stored.
Qed.

Lemma requests_ok_emit e :
  effect_ok moment_now e -> preserves requests_ok (emit e).
Proof.
  intros He w [Hf Ht]. split; [exact Hf|].
  cbn. apply Forall_app. split; [exact Ht|].
  constructor; [exact He|constructor].
Qed.

Lemma requests_ok_fetching w : requests_ok w -> requests_ok (fetching w).
Proof.
  intros [Hf Ht]. split; [exact Hf|].
  unfold Report.fetching. cbn [trace]. apply Forall_app. split; [exact Ht|].
  constructor; [exact I|]. constructor; [exact Hf|constructor].
Qed.

Lemma requests_ok_onParamsChange_ : preserves requests_ok onParamsChange_.
Proof.
  intros w [Hf Ht]. rewrite onParamsChange_spec. cbn zeta.
  assert (H : requests_ok
                (with_controller (normalized (scope w) (ctrl w)) w))
    by (split; [apply fields_ok_normalized, Hf|exact Ht]).
  destruct (truthy (s_name (scope w))); [apply requests_ok_fetching|];
    exact H.
Qed.

Ltac preserves_requests_ok :=
  repeat first
    [ apply preserves_bind; [|intros ?]
    | apply preserves_when
    | apply preserves_lift
    | apply preserves_ret
    | apply preserves_this
    | apply preserves_scope_
    | apply requests_ok_emit; exact I
    | (intros ? ?; assumption) ].

Lemma requests_ok_callback cb response :
  preserves requests_ok
    (callback stripTypeInfo upperCaseToTitleCase cb response).
Proof.
  destruct cb; cbn [callback];
    unfold Report.onReportResponse, Report.onLabels, onRDFDatetime,
      onDuration, getRDFValueDescriptor, write_state;
    preserves_requests_ok.
Qed.

Lemma requests_ok_step e w w' :
  requests_ok w -> step e w = Some w' -> requests_ok w'.
Proof.
  intros Hw. destruct e; cbn [Report.step].
  - intros [= <-]. exact Hw.
  - intros [= <-]. apply requests_ok_onParamsChange_, Hw.
  - intros [= <-]. revert w Hw.
    change (preserves requests_ok refreshReport).
    unfold refreshReport. preserves_requests_ok.
  - intros [= <-]. exact Hw.
  - destruct (pending w !! i); [|discriminate]. intros [= <-].
    apply requests_ok_callback. exact Hw.
  - destruct (pending w !! i); [|discriminate]. intros [= <-]. exact Hw.
  - destruct (watch_startTime (watches w)); [|discriminate]. intros [= <-].
    revert w Hw. change (preserves requests_ok onStartTimeWatch).
    unfold onStartTimeWatch. preserves_requests_ok.
  - destruct (watch_duration (watches w)); [|discriminate]. intros [= <-].
    revert w Hw. change (preserves requests_ok onDurationWatch).
    unfold onDurationWatch. preserves_requests_ok.
  - intros [= <-]. exact Hw.
Qed.

Lemma requests_ok_reachable w : reachable w -> requests_ok w.
Proof.
  intros (sc & es & Hrun).
  assert (H0 : requests_ok (ReportController sc)).
  { split; [repeat split; right; reflexivity|].
    cbn. repeat (constructor; [exact I|]). constructor. }
  revert Hrun H0. generalize (ReportController sc). clear sc.
  induction es as [|e es IH]; intros w0; cbn [Report.run].
  - intros [= <-] H0. exact H0.
  - destruct (step e w0) as [w1|] eqn:E; [|discriminate].
    intros Hrun H0. apply (IH w1 Hrun). eapply requests_ok_step; eassumption.
Qed.

Lemma param_ok_defined dflt v :
  param_ok dflt v -> dflt <> JNull -> dflt <> JUndefined ->
  v <> JNull /\ v <> JUndefined.
Proof.
  intros [Ht| ->] H1 H2; [|auto]. split; intros ->; discriminate Ht.
Qed.

(** X12: in every world the controller can reach, each of the stored start
    time, duration and client label is a truthy value or that parameter's
    default, and so is each parameter of every report request sent so far;
    in particular no request carries null or undefined. *)
Theorem request_parameters_never_null w :
  reachable w ->
  fields_ok moment_now (ctrl w) /\
  (forall url p,
     In (ApiGet url (Some p)) (trace w) ->
     params_ok moment_now p /\
     (start_time p <> JNull /\ start_time p <> JUndefined) /\
     (duration_param p <> JNull /\ duration_param p <> JUndefined) /\
     (client_label p <> JNull /\ client_label p <> JUndefined)).
Proof.
  intros [Hf Ht]%requests_ok_reachable. split; [exact Hf|].
  intros url p Hin. rewrite Forall_forall in Ht.
  apply list_elem_of_In, Ht in Hin. cbn in Hin.
  split; [exact Hin|]. destruct Hin as (H1 & H2 & H3).
  split; [|split]; eapply param_ok_defined; eauto; discriminate.
Qed.

(** *** The typed fields *)

Lemma assoc_get_set k x props : assoc_get k (assoc_set k x props) = Some x.
Proof.
  induction props as [|[k' v] props IH]; simpl.
  - rewrite String.eqb_refl. reflexivity.
  - destruct (String.eqb k' k) eqn:E; simpl.
    + rewrite String.eqb_refl. reflexivity.
    + rewrite E. exact IH.
Qed.

Lemma assoc_get_set_other k k' x props :
  k' <> k -> assoc_get k' (assoc_set k x props) = assoc_get k' props.
Proof.
  intros Hne. induction props as [|[k0 v] props IH]; simpl.
  - apply String.eqb_neq in Hne. rewrite String.eqb_sym, Hne. reflexivity.
  - destruct (String.eqb k0 k) eqn:E; simpl.
    + apply String.eqb_eq in E. subst k0.
      assert (H : String.eqb k k' = false)
        by (apply String.eqb_neq; congruence).
      rewrite H. reflexivity.
    + rewrite IH. reflexivity.
Qed.

Lemma prop_set_get v k x v' :
  prop_set v k x = Some v' ->
  prop_get v' k = Some x /\
  (forall k', k' <> k -> prop_get v' k' = prop_get v k').
Proof.
  destruct v; try discriminate. intros [= <-]. simpl. split.
  - rewrite assoc_get_set. reflexivity.
  - intros k' Hne. rewrite assoc_get_set_other by exact Hne. reflexivity.
Qed.

Lemma prop_set_object v k x :
  (exists props, v = JObj props) \/ prop_set v k x = None.
Proof. destruct v; eauto. Qed.

Lemma onRDFDatetime_spec rdfDesc w :
  onRDFDatetime rdfDesc w =
  match prop_get rdfDesc "default" with
  | None => (Throw "TypeError", w)
  | Some d =>
      match prop_set (angular_copy d) "value" (startTime (ctrl w)) with
      | None =>
          (Throw "TypeError",
           with_controller (set_typedStartTime (angular_copy d) (ctrl w)) w)
      | Some t =>
          (Ok tt,
           {| ctrl := set_typedStartTime t (ctrl w); scope := scope w;
              trace := trace w ++ [GetRDFValueDescriptor "Duration"];
              pending := pending w ++ [OnDuration];
              watches := set_watch_startTime (watches w) |})
      end
  end.
Proof.
  unfold onRDFDatetime.
  destruct (prop_get rdfDesc "default") as [d|] eqn:Hd;
    [|apply bind_lift_None; reflexivity].
  rewrite (bind_lift_Some _ _ _ _ _ eq_refl).
  rewrite bind_with_ctrl, bind_this.
  cbn [ctrl with_controller set_typedStartTime typedStartTime startTime].
  destruct (prop_set (angular_copy d) "value" (startTime (ctrl w)))
    as [t|] eqn:Ht.
  - rewrite (bind_lift_Some _ _ _ _ _ eq_refl).
    destruct w as [c sc tr pe ws]. destruct c. reflexivity.
  - rewrite (bind_lift_None _ _ _ _ eq_refl). reflexivity.
Qed.

Lemma onDuration_spec rdfDesc w :
  onDuration rdfDesc w =
  match prop_get rdfDesc "default" with
  | None => (Throw "TypeError", w)
  | Some d =>
      match prop_set (angular_copy d) "value" (duration (ctrl w)) with
      | None =>
          (Throw "TypeError",
           with_controller (set_typedDuration (angular_copy d) (ctrl w)) w)
      | Some t =>
          (Ok tt,
           {| ctrl := set_typedDuration t (ctrl w); scope := scope w;
              trace := trace w; pending := pending w;
              watches := set_watch_duration (watches w) |})
      end
  end.
Proof.
  unfold onDuration.
  destruct (prop_get rdfDesc "default") as [d|] eqn:Hd;
    [|apply bind_lift_None; reflexivity].
  rewrite (bind_lift_Some _ _ _ _ _ eq_refl).
  rewrite bind_with_ctrl, bind_this.
  cbn [ctrl with_controller set_typedDuration typedDuration duration].
  destruct (prop_set (angular_copy d) "value" (duration (ctrl w)))
    as [t|] eqn:Ht.
  - rewrite (bind_lift_Some _ _ _ _ _ eq_refl).
    destruct w as [c sc tr pe ws]. destruct c. reflexivity.
  - rewrite (bind_lift_None _ _ _ _ eq_refl). reflexivity.
Qed.

Lemma angular_copy_obj props :
  angular_copy (JObj props) = JObj (copy_props props).
Proof. reflexivity. Qed.

Lemma assoc_get_copy_props k props :
  assoc_get k (copy_props props) =
  if String.eqb k "$$hashKey" then None
  else option_map angular_copy (assoc_get k props).
Proof.
  induction props as [|[k0 x] props IH]; cbn [copy_props assoc_get].
  - destruct (String.eqb k "$$hashKey"); reflexivity.
  - destruct (String.eqb k0 "$$hashKey") eqn:Eh.
    + rewrite IH. apply String.eqb_eq in Eh. subst k0.
      rewrite (String.eqb_sym "$$hashKey" k).
      destruct (String.eqb k "$$hashKey"); reflexivity.
    + cbn [assoc_get]. destruct (String.eqb k0 k) eqn:Ek.
      * apply String.eqb_eq in Ek. subst k0. rewrite Eh. reflexivity.
      * exact IH.
Qed.

Lemma angular_copy_not_object d :
  (forall props, d <> JObj props) -> angular_copy d = d.
Proof. destruct d; try reflexivity. intros H. destruct (H props eq_refl). Qed.

(** X13: when the RDFDatetime descriptor arrives with an object as its
    default, the typed start time becomes the copy of that object ([value]
    set to the stored start time, every other property the copy of the
    default's, [$$hashKey] left out), the start-time watch is registered and
    the Duration descriptor is requested; when the default is missing or
    not an object the callback throws, and then no watch is registered and
    the Duration descriptor is not requested. *)
Theorem datetime_descriptor_starts_chain w rdfDesc :
  (forall props,
     prop_get rdfDesc "default" = Some (JObj props) ->
     fst (onRDFDatetime rdfDesc w) = Ok tt /\
     prop_get (typedStartTime (ctrl (snd (onRDFDatetime rdfDesc w)))) "value"
     = Some (startTime (ctrl w)) /\
     (forall k, k <> "value"%string -> k <> "$$hashKey"%string ->
        prop_get (typedStartTime (ctrl (snd (onRDFDatetime rdfDesc w)))) k =
        Some (angular_copy (default JUndefined (assoc_get k props)))) /\
     prop_get (typedStartTime (ctrl (snd (onRDFDatetime rdfDesc w))))
       "$$hashKey" = Some JUndefined /\
     watch_startTime (watches (snd (onRDFDatetime rdfDesc w))) = true /\
     trace (snd (onRDFDatetime rdfDesc w)) =
     trace w ++ [GetRDFValueDescriptor "Duration"] /\
     pending (snd (onRDFDatetime rdfDesc w)) = pending w ++ [OnDuration]) /\
  ((forall props, prop_get rdfDesc "default" <> Some (JObj props)) ->
   fst (onRDFDatetime rdfDesc w) = Throw "TypeError" /\
   watches (snd (onRDFDatetime rdfDesc w)) = watches w /\
   trace (snd (onRDFDatetime rdfDesc w)) = trace w /\
   pending (snd (onRDFDatetime rdfDesc w)) = pending w).
Proof.
  rewrite onRDFDatetime_spec. split.
  - intros props ->. rewrite angular_copy_obj.
    cbn [prop_set fst snd ctrl typedStartTime set_typedStartTime watches
         trace pending].
    split; [reflexivity|].
    split; [cbn; rewrite assoc_get_set; reflexivity|].
    split; [|split; [|repeat split]].
    + intros k Hk Hh. cbn [prop_get].
      rewrite assoc_get_set_other, assoc_get_copy_props by exact Hk.
      apply String.eqb_neq in Hh. rewrite Hh.
      destruct (assoc_get k props); reflexivity.
    + cbn [prop_get].
      rewrite assoc_get_set_other, assoc_get_copy_props by discriminate.
      reflexivity.
  - intros Hno. destruct (prop_get rdfDesc "default") as [d|];
      [|repeat split].
    rewrite angular_copy_not_object by (intros props ->; apply (Hno props eq_refl)).
    destruct (prop_set_object d "value" (startTime (ctrl w)))
      as [[props ->]| ->]; [destruct (Hno props eq_refl)|repeat split].
Qed.

Lemma datetime_descriptor_starts_chain_witness :
  prop_get (typedStartTime (ctrl (snd
    (onRDFDatetime
       (JObj [("default", JObj [("$$hashKey", JStr "object:3");
                                ("age", JNum 0); ("value", JNum 0)])])
       (Report.ReportController load_time no_bindings))))) "age" =
  Some (JNum 0) /\
  trace (snd (onRDFDatetime (JObj [])
                (Report.ReportController load_time no_bindings))) =
  [StateWrite "INITIAL"; GetRDFValueDescriptor "RDFDatetime";
   ApiGet "/clients/labels" None].
Proof.
  split.
  - destruct (proj1 (datetime_descriptor_starts_chain
                    (Report.ReportController load_time no_bindings)
                    (JObj [("default", JObj [("$$hashKey", JStr "object:3");
                                             ("age", JNum 0);
                                             ("value", JNum 0)])]))
                [("$$hashKey", JStr "object:3"); ("age", JNum 0);
                 ("value", JNum 0)] eq_refl)
      as (_ & _ & H & _).
    apply (H "age"%string); discriminate.
  - apply (proj2 (datetime_descriptor_starts_chain
                    (Report.ReportController load_time no_bindings)
                    (JObj []))).
    intros props. discriminate.
Defined.

(** X14: once both watches are registered and the typed fields are objects,
    running the three watch listeners brings the typed fields and the
    edited label in line with the stored parameters, which they leave as
    they are. *)
Theorem watch_listeners_synchronise w p1 p2 :
  watch_startTime (watches w) = true ->
  watch_duration (watches w) = true ->
  typedStartTime (ctrl w) = JObj p1 ->
  typedDuration (ctrl w) = JObj p2 ->
  exists w',
    run [WatchStartTime; WatchDuration; WatchClientLabel] w = Some w' /\
    in_sync (ctrl w') /\
    startTime (ctrl w') = startTime (ctrl w) /\
    duration (ctrl w') = duration (ctrl w) /\
    clientLabel (ctrl w') = clientLabel (ctrl w) /\
    state (ctrl w') = state (ctrl w) /\
    scope w' = scope w /\ trace w' = trace w /\ pending w' = pending w.
Proof.
  intros H1 H2 Ht1 Ht2. destruct w as [c sc tr pe [ws wd]]. destruct c.
  cbn in H1, H2, Ht1, Ht2. subst.
  eexists. split; [reflexivity|]. cbn.
  split; [|repeat split].
  unfold in_sync. cbn. rewrite !assoc_get_set. repeat split.
Qed.

Lemma refreshReport_spec w v1 v2 :
  prop_get (typedStartTime (ctrl w)) "value" = Some v1 ->
  prop_get (typedDuration (ctrl w)) "value" = Some v2 ->
  refreshReport w =
  (Ok tt,
   {| ctrl := ctrl w;
      scope := {| s_name := s_name (scope w); s_startTime := v1;
                  s_duration := v2;
                  s_clientLabel := modelClientLabel (ctrl w) |};
      trace := trace w; pending := pending w; watches := watches w |}).
Proof.
  intros H1 H2. unfold refreshReport.
  rewrite bind_this, (bind_lift_Some _ _ _ _ _ H1).
  destruct w as [c sc tr pe ws]. cbn in H2 |- *.
  unfold bind, with_scope, this, lift. cbn. rewrite H2. reflexivity.
Qed.

Lemma stored_same old dflt :
  param_ok dflt old -> is_null dflt = false -> stored old old dflt = old.
Proof.
  intros [Ht| ->] Hd; unfold stored.
  - assert (Hn : is_null old = false)
      by (destruct old; try reflexivity; discriminate Ht).
    rewrite Hn, Ht. reflexivity.
  - rewrite Hd. destruct (truthy dflt); reflexivity.
Qed.

(** X15: when the typed fields and the edited label agree with the stored
    parameters (nothing was edited), the refresh binds exactly the stored
    parameters, and the handler it triggers stores them again unchanged. *)
Theorem refresh_without_edits w :
  reachable w ->
  in_sync (ctrl w) ->
  fst (refreshReport w) = Ok tt /\
  scope (snd (refreshReport w)) =
  {| s_name := s_name (scope w); s_startTime := startTime (ctrl w);
     s_duration := duration (ctrl w);
     s_clientLabel := clientLabel (ctrl w) |} /\
  startTime (ctrl (snd (onParamsChange_ (snd (refreshReport w))))) =
  startTime (ctrl w) /\
  duration (ctrl (snd (onParamsChange_ (snd (refreshReport w))))) =
  duration (ctrl w) /\
  clientLabel (ctrl (snd (onParamsChange_ (snd (refreshReport w))))) =
  clientLabel (ctrl w).
Proof.
  intros [(Hs & Hd & Hl) _]%requests_ok_reachable (H1 & H2 & H3).
  rewrite (refreshReport_spec w _ _ H1 H2), H3. cbn [fst snd].
  split; [reflexivity|]. split; [reflexivity|].
  rewrite startTime_onParamsChange, duration_onParamsChange,
    clientLabel_onParamsChange.
  cbn [scope ctrl s_startTime s_duration s_clientLabel].
  rewrite !stored_same by (assumption || reflexivity). repeat split.
Qed.

(** *** The state before the first fetch *)

Lemma has_report_request_app tr tr' :
  has_report_request (tr ++ tr') =
  has_report_request tr || has_report_request tr'.
Proof. apply existsb_app. Qed.

Lemma awaiting_app p l l' :
  awaiting p (l ++ l') = (awaiting p l + awaiting p l')%nat.
Proof. unfold awaiting. rewrite List.filter_app, length_app. reflexivity. Qed.

Lemma awaiting_delete p (l : list Callback) i cb :
  l !! i = Some cb ->
  (awaiting p (delete i l) + (if p cb then 1 else 0))%nat = awaiting p l.
Proof.
  unfold awaiting. revert i. induction l as [|x l IH]; intros [|i];
    simpl; try discriminate.
  - intros [= ->]. destruct (p cb); simpl; lia.
  - intros Hi. specialize (IH i Hi). destruct (p x); simpl; lia.
Qed.

Lemma fetch_inv_emit e :
  is_report_request e = false -> preserves fetch_inv (emit e).
Proof.
  intros He w Hw. unfold fetch_inv, fetched in *. cbn [snd emit ctrl trace pending].
  rewrite has_report_request_app. cbn [has_report_request existsb].
  rewrite He, !orb_false_r. exact Hw.
Qed.

Lemma fetch_inv_await cb :
  is_OnReport cb = false -> preserves fetch_inv (await cb).
Proof.
  intros Hcb w Hw. unfold fetch_inv, fetched in *.
  cbn [snd await ctrl trace pending].
  rewrite awaiting_app. unfold awaiting at 2. cbn [List.filter].
  rewrite Hcb. cbn [length]. rewrite Nat.add_0_r. exact Hw.
Qed.

Lemma fetched_emit e : preserves fetched (emit e).
Proof.
  intros w [Hs Hr]. split; [exact Hs|]. cbn.
  rewrite has_report_request_app, Hr. reflexivity.
Qed.

Lemma fetched_set_state s :
  s <> "INITIAL"%string -> preserves fetched (with_ctrl (set_state s)).
Proof. intros Hs w [_ Hr]. split; [exact Hs|exact Hr]. Qed.

Lemma reachable_invariant (P : World -> Prop) :
  (forall sc, P (ReportController sc)) ->
  (forall e w w', P w -> step e w = Some w' -> P w') ->
  forall w, reachable w -> P w.
Proof.
  intros Hinit Hstep w (sc & es & Hrun).
  specialize (Hinit sc). revert Hrun Hinit. generalize (ReportController sc).
  clear sc. induction es as [|e es IH]; intros w0; cbn [Report.run].
  - intros [= <-] H0. exact H0.
  - destruct (step e w0) as [w1|] eqn:E; [|discriminate].
    intros Hrun H0. apply (IH w1 Hrun). eapply Hstep; eassumption.
Qed.

Ltac preserves_fetch_inv :=
  repeat first
    [ apply preserves_bind; [|intros ?]
    | apply preserves_when
    | apply preserves_lift
    | apply preserves_ret
    | apply preserves_this
    | apply preserves_scope_
    | apply fetch_inv_emit; reflexivity
    | apply fetch_inv_await; reflexivity
    | (intros ? ?; assumption) ].

Ltac preserves_fetched :=
  repeat first
    [ apply preserves_bind; [|intros ?]
    | apply preserves_when
    | apply preserves_lift
    | apply preserves_ret
    | apply preserves_this
    | apply preserves_scope_
    | apply fetched_emit
    | apply fetched_set_state; discriminate
    | (intros ? ?; assumption) ].

Lemma fetch_inv_settle i cb w :
  pending w !! i = Some cb -> fetch_inv w -> fetch_inv (settle i w).
Proof.
  intros Hi [(Hs & Hr & Hp)|Hf]; [left|right; exact Hf].
  split; [exact Hs|]. split; [exact Hr|]. cbn [settle pending].
  pose proof (awaiting_delete is_OnReport _ _ _ Hi). lia.
Qed.

Lemma fetched_onReportResponse response :
  preserves fetched (onReportResponse response).
Proof. unfold Report.onReportResponse, write_state. preserves_fetched. Qed.

Lemma fetch_inv_descriptor_callbacks response :
  preserves fetch_inv (Report.onLabels stripTypeInfo response) /\
  preserves fetch_inv (onRDFDatetime response) /\
  preserves fetch_inv (onDuration response).
Proof.
  repeat split;
    unfold Report.onLabels, onRDFDatetime, onDuration, getRDFValueDescriptor;
    preserves_fetch_inv.
Qed.

Lemma fetch_inv_step e w w' : fetch_inv w -> step e w = Some w' -> fetch_inv w'.
Proof.
  intros Hw. destruct e; cbn [Report.step].
  - intros [= <-]. exact Hw.
  - intros [= <-]. rewrite onParamsChange_spec. cbn zeta.
    destruct (truthy (s_name (scope w))); [|exact Hw].
    right. split; [discriminate|]. cbn [snd Report.fetching trace].
    rewrite has_report_request_app. cbn. apply orb_true_r.
  - intros [= <-]. revert w Hw. change (preserves fetch_inv refreshReport).
    unfold refreshReport. preserves_fetch_inv.
  - intros [= <-]. exact Hw.
  - destruct (pending w !! i) as [cb|] eqn:Hi; [|discriminate].
    intros [= <-]. pose proof (fetch_inv_settle i cb w Hi Hw) as Hs.
    destruct cb; cbn [callback];
      [|apply fetch_inv_descriptor_callbacks, Hs..].
    right. destruct Hw as [(_ & _ & Hp)|Hf].
    + pose proof (awaiting_delete is_OnReport _ _ _ Hi) as Hd.
      cbn in Hd. lia.
    + apply fetched_onReportResponse. exact Hf.
  - destruct (pending w !! i) as [cb|] eqn:Hi; [|discriminate].
    intros [= <-]. eapply fetch_inv_settle; eassumption.
  - destruct (watch_startTime (watches w)); [|discriminate]. intros [= <-].
    revert w Hw. change (preserves fetch_inv onStartTimeWatch).
    unfold onStartTimeWatch. preserves_fetch_inv.
  - destruct (watch_duration (watches w)); [|discriminate]. intros [= <-].
    revert w Hw. change (preserves fetch_inv onDurationWatch).
    unfold onDurationWatch. preserves_fetch_inv.
  - intros [= <-]. exact Hw.
Qed.

(** X16: the state is INITIAL exactly as long as no report request was
    sent: it never returns to INITIAL after the first fetch, and while it is
    INITIAL no report callback is pending. *)
Theorem initial_until_first_fetch w :
  reachable w ->
  (state (ctrl w) = "INITIAL"%string <->
   has_report_request (trace w) = false) /\
  (state (ctrl w) = "INITIAL"%string ->
   awaiting is_OnReport (pending w) = 0%nat).
Proof.
  intros Hr.
  assert (H : fetch_inv w).
  { revert w Hr. apply reachable_invariant.
    - intros sc. left. repeat split.
    - apply fetch_inv_step. }
  destruct H as [(Hs & Hq & Hp)|[Hs Hq]].
  - repeat split; auto.
  - split; [|contradiction]. split; [contradiction|congruence].
Qed.

(** *** The descriptor chain *)

Lemma duration_requests_app tr tr' :
  duration_requests (tr ++ tr') =
  (duration_requests tr + duration_requests tr')%nat.
Proof.
  unfold duration_requests. rewrite List.filter_app, length_app. reflexivity.
Qed.

Lemma desc_inv_emit e :
  is_duration_request e = false -> preserves desc_inv (emit e).
Proof.
  intros He w Hw. unfold desc_inv in *. cbn [snd emit trace pending watches].
  rewrite duration_requests_app. unfold duration_requests at 2 4 6.
  cbn [List.filter]. rewrite He. cbn [length]. rewrite Nat.add_0_r. exact Hw.
Qed.

Lemma desc_inv_await cb :
  is_OnRDFDatetime cb = false -> is_OnDuration cb = false ->
  preserves desc_inv (await cb).
Proof.
  intros H1 H2 w Hw. unfold desc_inv in *.
  cbn [snd await trace pending watches].
  rewrite !awaiting_app. unfold awaiting at 2 4. cbn [List.filter].
  rewrite H1, H2. cbn [length]. rewrite !Nat.add_0_r. exact Hw.
Qed.

Ltac preserves_desc_inv :=
  repeat first
    [ apply preserves_bind; [|intros ?]
    | apply preserves_when
    | apply preserves_lift
    | apply preserves_ret
    | apply preserves_this
    | apply preserves_scope_
    | apply desc_inv_emit; reflexivity
    | apply desc_inv_await; reflexivity
    | (intros ? ?; assumption) ].

Lemma desc_inv_settle i cb w :
  pending w !! i = Some cb -> desc_inv w -> desc_inv (settle i w).
Proof.
  intros Hi (H1 & H2 & H3). unfold desc_inv.
  cbn [settle trace pending watches].
  pose proof (awaiting_delete is_OnRDFDatetime _ _ _ Hi).
  pose proof (awaiting_delete is_OnDuration _ _ _ Hi).
  repeat split; try lia; apply H3.
Qed.

Lemma desc_inv_fetching w : desc_inv w -> desc_inv (fetching w).
Proof.
  intros Hw. unfold desc_inv, Report.fetching in *.
  cbn [trace pending watches].
  rewrite duration_requests_app, !awaiting_app.
  unfold duration_requests at 2 4 6, awaiting at 2 4.
  cbn. rewrite !Nat.add_0_r. exact Hw.
Qed.

Lemma desc_inv_onRDFDatetime i w rdfDesc :
  pending w !! i = Some OnRDFDatetime -> desc_inv w ->
  desc_inv (snd (onRDFDatetime rdfDesc (settle i w))).
Proof.
  intros Hi (H1 & H2 & H3).
  pose proof (awaiting_delete is_OnRDFDatetime _ _ _ Hi) as Hd1.
  pose proof (awaiting_delete is_OnDuration _ _ _ Hi) as Hd2.
  cbn in Hd1, Hd2. rewrite onRDFDatetime_spec.
  assert (Hquiet : desc_inv (settle i w)).
  { unfold desc_inv. cbn [settle trace pending watches].
    repeat split; try lia; apply H3. }
  destruct (prop_get rdfDesc "default") as [d|]; [|exact Hquiet].
  destruct (prop_set _ "value" _); [|exact Hquiet].
  unfold desc_inv. cbn [snd settle ctrl trace pending watches
    set_watch_startTime watch_startTime watch_duration].
  rewrite duration_requests_app, !awaiting_app.
  unfold duration_requests at 2 4 6, awaiting at 2 4. cbn.
  destruct (watch_duration (watches w)); cbn in *; repeat split; lia.
Qed.

Lemma desc_inv_onDuration i w rdfDesc :
  pending w !! i = Some OnDuration -> desc_inv w ->
  desc_inv (snd (onDuration rdfDesc (settle i w))).
Proof.
  intros Hi (H1 & H2 & H3).
  pose proof (awaiting_delete is_OnRDFDatetime _ _ _ Hi) as Hd1.
  pose proof (awaiting_delete is_OnDuration _ _ _ Hi) as Hd2.
  cbn in Hd1, Hd2. rewrite onDuration_spec.
  assert (Hquiet : desc_inv (settle i w)).
  { unfold desc_inv. cbn [settle trace pending watches].
    repeat split; try lia; apply H3. }
  destruct (prop_get rdfDesc "default") as [d|]; [|exact Hquiet].
  destruct (prop_set _ "value" _); [|exact Hquiet].
  unfold desc_inv. cbn [snd settle ctrl trace pending watches
    set_watch_duration watch_startTime watch_duration Nat.b2n].
  destruct (watch_duration (watches w)); cbn in *;
    repeat split; try lia; apply H3.
Qed.

Lemma desc_inv_step e w w' : desc_inv w -> step e w = Some w' -> desc_inv w'.
Proof.
  intros Hw. destruct e; cbn [Report.step].
  - intros [= <-]. exact Hw.
  - intros [= <-]. rewrite onParamsChange_spec. cbn zeta.
    destruct (truthy (s_name (scope w))); [apply desc_inv_fetching|];
      exact Hw.
  - intros [= <-]. revert w Hw. change (preserves desc_inv refreshReport).
    unfold refreshReport. preserves_desc_inv.
  - intros [= <-]. exact Hw.
  - destruct (pending w !! i) as [cb|] eqn:Hi; [|discriminate].
    intros [= <-]. pose proof (desc_inv_settle i cb w Hi Hw) as Hs.
    destruct cb; cbn [callback].
    + revert Hs. generalize (settle i w).
      change (preserves desc_inv (onReportResponse response)).
      unfold Report.onReportResponse, write_state. preserves_desc_inv.
    + revert Hs. generalize (settle i w).
      change (preserves desc_inv (Report.onLabels stripTypeInfo response)).
      unfold Report.onLabels. preserves_desc_inv.
    + apply desc_inv_onRDFDatetime; assumption.
    + apply desc_inv_onDuration; assumption.
  - destruct (pending w !! i) as [cb|] eqn:Hi; [|discriminate].
    intros [= <-]. eapply desc_inv_settle; eassumption.
  - destruct (watch_startTime (watches w)); [|discriminate]. intros [= <-].
    revert w Hw. change (preserves desc_inv onStartTimeWatch).
    unfold onStartTimeWatch. preserves_desc_inv.
  - destruct (watch_duration (watches w)); [|discriminate]. intros [= <-].
    revert w Hw. change (preserves desc_inv onDurationWatch).
    unfold onDurationWatch. preserves_desc_inv.
  - intros [= <-]. exact Hw.
Qed.

(** X17: in every world the controller can reach, the Duration descriptor
    was requested at most once, and it was requested exactly when the
    start-time watch is registered; the duration watch is registered only
    after the start-time watch, and a Duration callback is pending only
    after that request. *)
Theorem descriptors_requested_in_order w :
  reachable w ->
  (duration_requests (trace w) <= 1)%nat /\
  (watch_startTime (watches w) = true <->
   duration_requests (trace w) = 1%nat) /\
  (watch_duration (watches w) = true ->
   watch_startTime (watches w) = true) /\
  (awaiting is_OnDuration (pending w) <= duration_requests (trace w))%nat /\
  (awaiting is_OnRDFDatetime (pending w) = 1%nat ->
   duration_requests (trace w) = 0%nat).
Proof.
  intros Hr.
  assert (H : desc_inv w).
  { revert w Hr. apply reachable_invariant.
    - intros sc. unfold desc_inv. cbn. repeat split; try lia; discriminate.
    - apply desc_inv_step. }
  destruct H as (H1 & H2 & H3).
  split; [lia|]. split; [exact H3|]. split; [|split; lia].
  intros Hwd. rewrite Hwd in H2. cbn in H2. apply H3. lia.
Qed.

End ReportBehaviour.

(** ** Instances *)

Section ReportBehaviourInstances.
Import Report Samples ReportFacts.

Abbreviation step0 := (Report.step load_time strip title decimal object_string).
Abbreviation reachable0 :=
  (Report.reachable load_time strip title decimal object_string).
Abbreviation run0 := (Report.run load_time strip title decimal object_string).
Abbreviation onParamsChange0 :=
  (Report.onParamsChange_ load_time decimal object_string).

Lemma world_fetching_reachable : reachable0 world_fetching.
Proof. exists scope_X, [ParamsChange]. vm_compute. reflexivity. Qed.

Lemma world_described_reachable : reachable0 world_described.
Proof.
  exists scope_X,
    [Resolve 0 (descriptor (JNum 0)); Resolve 1 (descriptor (JNum 0))].
  vm_compute. reflexivity.
Qed.

Lemma onParamsChange_again_witness :
  pending (snd (onParamsChange0 (snd (onParamsChange0
             (ReportController load_time scope_X))))) =
  [OnRDFDatetime; OnLabels; OnReport; OnReport].
Proof.
  destruct (onParamsChange_again load_time decimal object_string
              (ReportController load_time scope_X)) as (_ & _ & H).
  destruct H as (request & _ & _ & _ & Hp); [reflexivity|].
  rewrite Hp. reflexivity.
Defined.

Lemma report_response_applied_on_arrival_witness :
  exists w',
    step0 (Resolve 2 report_response) world_two_fetches = Some w' /\
    state (ctrl w') = "LOADED"%string /\
    pending w' = [OnRDFDatetime; OnLabels; OnReport].
Proof.
  eexists. split.
  - apply (report_response_applied_on_arrival load_time strip title decimal
             object_string world_two_fetches 2 report_response
             (JObj [("data", JObj [("points", JNum 3)]);
                    ("desc", JObj [("type", JStr "Line Chart")])])
             (JObj [("points", JNum 3)])
             (JObj [("type", JStr "Line Chart")])
             (JObj [("points", JNum 3)])
             (JObj [("type", JStr "Line Chart")])
             (JStr "Line Chart") "Line Chart"%string);
      vm_compute; reflexivity.
  - split; vm_compute; reflexivity.
Defined.

Lemma scope_written_by_refresh_only_witness :
  scope (snd (onParamsChange0 (ReportController load_time scope_X))) =
  scope_X.
Proof.
  exact (scope_written_by_refresh_only load_time strip title decimal
           object_string ParamsChange (ReportController load_time scope_X)
           _ eq_refl).
Defined.

Lemma request_parameters_never_null_witness :
  fields_ok load_time (ctrl world_fetching).
Proof.
  apply (request_parameters_never_null load_time strip title decimal
           object_string world_fetching).
  apply world_fetching_reachable.
Defined.

Lemma watch_listeners_synchronise_witness :
  exists w',
    run0 [WatchStartTime; WatchDuration; WatchClientLabel] world_described
    = Some w' /\
    in_sync (ctrl w').
Proof.
  destruct (watch_listeners_synchronise load_time strip title decimal
              object_string world_described
              [("value", JNum 1597408000000000)] [("value", JNum 2592000)])
    as (w' & Hrun & Hsync & _); try (vm_compute; reflexivity).
  exists w'. split; assumption.
Defined.

Lemma refresh_without_edits_witness :
  scope (snd (refreshReport world_described)) =
  bindings (JStr "X") (JNum 1597408000000000) (JNum 2592000) (JStr "").
Proof.
  destruct (refresh_without_edits load_time strip title decimal object_string
              world_described) as (_ & H & _).
  - apply world_described_reachable.
  - repeat split; vm_compute; reflexivity.
  - rewrite H. vm_compute. reflexivity.
Defined.

Lemma initial_until_first_fetch_witness :
  state (ctrl world_fetching) = "INITIAL"%string <->
  has_report_request (trace world_fetching) = false.
Proof.
  apply (initial_until_first_fetch load_time strip title decimal
           object_string world_fetching).
  apply world_fetching_reachable.
Defined.

Lemma descriptors_requested_in_order_witness :
  (duration_requests (trace world_described) <= 1)%nat.
Proof.
  apply (descriptors_requested_in_order load_time strip title decimal
           object_string world_described).
  apply world_described_reachable.
Defined.

End ReportBehaviourInstances.
